(** * Indian Smart Shopping Assistant: preference extraction, query building,
      price normalisation, fetching and ranking (main.py)

    Python text is modelled by its UTF-8 bytes ([string] of the Standard
    Library).  Substring tests on UTF-8 text agree with substring tests on
    code points.  [lower] changes the ASCII letters, as [str.lower] does on
    ASCII text; the markers of the program are all ASCII.  A Python [float]
    obtained from a decimal literal is modelled by the exact rational value
    of the literal ([Q], in lowest terms); CPython returns the nearest
    binary64, which is the value itself for the integral rupee amounts used
    below. *)

From Stdlib Require Import Strings.String Strings.Ascii ZArith QArith Qreduction.
From Stdlib Require Import DecimalString List Bool Arith Lia Permutation Sorted.
From Stdlib Require DecimalPos DecimalN.
Import ListNotations.

Close Scope Q_scope.
Open Scope string_scope.

(** ** Text primitives of the Python runtime *)

Module Text.

Definition is_upper (c : ascii) : bool :=
  let n := nat_of_ascii c in (65 <=? n)%nat && (n <=? 90)%nat.

Definition lower_char (c : ascii) : ascii :=
  if is_upper c then ascii_of_nat (nat_of_ascii c + 32) else c.

(** [s.lower()] *)
Fixpoint lower (s : string) : string :=
  match s with
  | EmptyString => EmptyString
  | String c s' => String (lower_char c) (lower s')
  end.

(** [s.startswith(p)] *)
Fixpoint startswith (p s : string) : bool :=
  match p, s with
  | EmptyString, _ => true
  | String a p', String b s' => Ascii.eqb a b && startswith p' s'
  | String _ _, EmptyString => false
  end.

(** [needle in hay] *)
Fixpoint contains (needle hay : string) : bool :=
  startswith needle hay ||
  match hay with
  | EmptyString => false
  | String _ hay' => contains needle hay'
  end.

(** [s.replace(',', '')] *)
Fixpoint remove_commas (s : string) : string :=
  match s with
  | EmptyString => EmptyString
  | String c s' => if Ascii.eqb c "," then remove_commas s' else String c (remove_commas s')
  end.

(** the text with the UTF-8 bytes [l] *)
Definition utf8 (l : list nat) : string :=
  fold_right (fun n s => String (ascii_of_nat n) s) EmptyString l.

Definition is_digit (c : ascii) : bool :=
  let n := nat_of_ascii c in (48 <=? n)%nat && (n <=? 57)%nat.

(** [\s] on ASCII text: tab, line feed, vertical tab, form feed, carriage
    return, the four separators 28-31 and the space *)
Definition is_space (c : ascii) : bool :=
  let n := nat_of_ascii c in
  ((9 <=? n)%nat && (n <=? 13)%nat) || ((28 <=? n)%nat && (n <=? 32)%nat).

Fixpoint all_chars (p : ascii -> bool) (s : string) : bool :=
  match s with
  | EmptyString => true
  | String c s' => p c && all_chars p s'
  end.

(** the rest of [s] after its longest prefix of characters satisfying [p] *)
Fixpoint drop_while (p : ascii -> bool) (s : string) : string :=
  match s with
  | EmptyString => EmptyString
  | String c s' => if p c then drop_while p s' else s
  end.

(** the prefix of [s] that lies before its suffix [s'] *)
Definition consumed (s s' : string) : string :=
  substring 0 (String.length s - String.length s') s.

Definition is_empty (s : string) : bool :=
  match s with EmptyString => true | _ => false end.

End Text.
Import Text.

(** ** Results of Python computations: a value or a raised exception *)

Record exn : Type := Exn { exn_kind : string; exn_text : string }.

Inductive outcome (A : Type) : Type :=
| Returns (a : A)
| Raises (e : exn).
Arguments Returns {A} a.
Arguments Raises {A} e.

(** ** float(s) on the literals that reach it

    Both call sites pass a run of digits with at most one dot; [float]
    accepts it when it holds a digit and raises ValueError otherwise. *)

Definition digit_value (c : ascii) : Z := Z.of_nat (nat_of_ascii c - 48).

Fixpoint digits_value (acc : Z) (s : string) : Z :=
  match s with
  | EmptyString => acc
  | String c s' => digits_value (10 * acc + digit_value c) s'
  end.

(** the number written [ip.fp] in decimal, in lowest terms *)
Definition decimal (ip fp : string) : Q :=
  Qred (Qmake (digits_value 0 (ip ++ fp)) (Z.to_pos (10 ^ Z.of_nat (String.length fp)))).

Fixpoint take_while (p : ascii -> bool) (s : string) : string :=
  match s with
  | EmptyString => EmptyString
  | String c s' => if p c then String c (take_while p s') else EmptyString
  end.

Definition float_error : exn := Exn "ValueError" "could not convert string to float".

Definition float (s : string) : outcome Q :=
  let ip := take_while is_digit s in
  match drop_while is_digit s with
  | EmptyString => if is_empty ip then Raises float_error else Returns (decimal ip "")
  | String c fp =>
      if Ascii.eqb c "." && all_chars is_digit fp && negb (is_empty ip && is_empty fp)
      then Returns (decimal ip fp)
      else Raises float_error
  end.

(** ** The fragment of [re] that the two patterns of main.py use

    Quantifiers are applied to character classes only; matching is
    backtracking, greedy and leftmost, alternatives are tried in order. *)

Module Re.

Inductive charclass : Type :=
| CDigit                            (* \d *)
| CSpace                            (* \s *)
| CChar (c : ascii)                 (* a character inside [...] *)
| CUnion (a b : charclass).         (* [ab] *)

Fixpoint in_class (cl : charclass) (c : ascii) : bool :=
  match cl with
  | CDigit => is_digit c
  | CSpace => is_space c
  | CChar a => Ascii.eqb a c
  | CUnion a b => in_class a c || in_class b c
  end.

Inductive regex : Type :=
| RLit (text : string)              (* literal text *)
| RStar (cl : charclass)            (* cl*  *)
| RPlus (cl : charclass)            (* cl+  *)
| RSeq (r1 r2 : regex)              (* r1 r2 *)
| RAlt (r1 r2 : regex)              (* r1|r2 *)
| ROpt (r : regex)                  (* (?:r)? *)
| RGroup (n : nat) (r : regex).     (* the n-th capturing group *)

Definition groups : Type := list (nat * string).

Fixpoint group (n : nat) (g : groups) : option string :=
  match g with
  | [] => None
  | (m, s) :: g' => if Nat.eqb m n then Some s else group n g'
  end.

(** [skip_literal ic l s]: the rest of [s] after the literal [l], compared
    without regard to case when [ic] (re.IGNORECASE) is set *)
Fixpoint skip_literal (ic : bool) (l s : string) : option string :=
  match l, s with
  | EmptyString, _ => Some s
  | String a l', String b s' =>
      if (if ic then Ascii.eqb (lower_char a) (lower_char b) else Ascii.eqb a b)
      then skip_literal ic l' s' else None
  | String _ _, EmptyString => None
  end.

Section Matcher.
Context {R : Type}.

(** greedy [cl*]: the longest run first, then shorter ones *)
Fixpoint star_class (cl : charclass) (k : string -> option R) (s : string) : option R :=
  match s with
  | EmptyString => k s
  | String c s' =>
      if in_class cl c
      then match star_class cl k s' with
           | Some r => Some r
           | None => k s
           end
      else k s
  end.

Fixpoint rmatch (ic : bool) (r : regex) (k : string -> groups -> option R)
         (s : string) (g : groups) : option R :=
  match r with
  | RLit l =>
      match skip_literal ic l s with
      | Some s' => k s' g
      | None => None
      end
  | RStar cl => star_class cl (fun s' => k s' g) s
  | RPlus cl =>
      match s with
      | String c s' => if in_class cl c then star_class cl (fun s'' => k s'' g) s' else None
      | EmptyString => None
      end
  | RSeq r1 r2 => rmatch ic r1 (rmatch ic r2 k) s g
  | RAlt r1 r2 =>
      match rmatch ic r1 k s g with
      | Some x => Some x
      | None => rmatch ic r2 k s g
      end
  | ROpt r1 =>
      match rmatch ic r1 k s g with
      | Some x => Some x
      | None => k s g
      end
  | RGroup n r1 => rmatch ic r1 (fun s' g' => k s' ((n, consumed s s') :: g')) s g
  end.
End Matcher.

(** a match object: the text of the whole match and the captured groups *)
Record match_obj : Type := { whole : string; captures : groups }.

Definition match_here (ic : bool) (r : regex) (s : string) : option match_obj :=
  rmatch ic r (fun s' g => Some {| whole := consumed s s'; captures := g |}) s [].

(** [re.search]: the match at the leftmost position that has one *)
Fixpoint search (ic : bool) (r : regex) (s : string) : option match_obj :=
  match match_here ic r s with
  | Some m => Some m
  | None =>
      match s with
      | EmptyString => None
      | String _ s' => search ic r s'
      end
  end.

End Re.
Import Re.


(** The currency-glyph literal exactly as main.py spells it at lines 31, 90,
    91 and 103: the three code points U+00E2 U+201A U+00B9, whose UTF-8
    bytes are C3 A2, E2 80 9A, C2 B9. *)
Definition rupee : string := utf8 [195; 162; 226; 128; 154; 194; 185].

(** The rupee sign U+20B9 (UTF-8 bytes E2 82 B9), as the specification
    writes it. *)
Definition rupee_sign : string := utf8 [226; 130; 185].

(** ** build_search_query (main.py lines 41-76) *)

Definition colors : list string :=
  ["silver"; "space grey"; "space gray"; "gold"; "black"; "white"; "blue";
   "green"; "purple"; "red"].

Definition build_search_query (base_product user_preferences : string) : string :=
  let query := base_product in
  let query := if contains "pro" (lower user_preferences)
               then query ++ " Pro" else query in
  let query := if contains "air" (lower user_preferences)
               then query ++ " Air" else query in
  let query := if contains "16" user_preferences || contains "16-inch" (lower user_preferences)
               then query ++ " 16-inch" else query in
  let query := if contains "14" user_preferences || contains "14-inch" (lower user_preferences)
               then query ++ " 14-inch" else query in
  let query := if contains "13" user_preferences || contains "13-inch" (lower user_preferences)
               then query ++ " 13-inch" else query in
  let query := if contains "512" user_preferences
               then query ++ " 512GB"
               else if contains "1tb" (lower user_preferences) || contains "1 tb" (lower user_preferences)
               then query ++ " 1TB"
               else if contains "2tb" (lower user_preferences) || contains "2 tb" (lower user_preferences)
               then query ++ " 2TB"
               else query in
  let query := if contains "16gb" (lower user_preferences) || contains "16 gb" (lower user_preferences)
               then query ++ " 16GB"
               else if contains "32gb" (lower user_preferences) || contains "32 gb" (lower user_preferences)
               then query ++ " 32GB"
               else query in
  fold_left (fun query color =>
               if contains color (lower user_preferences)
               then query ++ " " ++ color else query)
            colors query.

Definition scenario_text (glyph : string) : string :=
  "Do you prefer MacBook Pro or MacBook Air?: Pro. What screen size...?: 16-inch. What's your budget...?: between "
  ++ glyph ++ "1,50,000 and " ++ glyph ++ "2,00,000.".


(** ** extract_price_range (main.py lines 28-38) *)

(** [\d+[,\d]*(?:\.\d+)?] *)
Definition number_re : regex :=
  RSeq (RPlus CDigit)
       (RSeq (RStar (CUnion (CChar ",") CDigit))
             (ROpt (RSeq (RLit ".") (RPlus CDigit)))).

(** [(?:between\s+)?(?:G)?(number)\s*(?:to|-|and)\s*(?:G)?(number)], where G
    is the glyph literal [rupee] *)
Definition price_pattern : regex :=
  RSeq (ROpt (RSeq (RLit "between") (RPlus CSpace)))
  (RSeq (ROpt (RLit rupee))
  (RSeq (RGroup 1 number_re)
  (RSeq (RStar CSpace)
  (RSeq (RAlt (RLit "to") (RAlt (RLit "-") (RLit "and")))
  (RSeq (RStar CSpace)
  (RSeq (ROpt (RLit rupee))
        (RGroup 2 number_re))))))).

Definition no_group : exn :=
  Exn "AttributeError" "'NoneType' object has no attribute 'replace'".

Definition extract_price_range (user_preferences : string)
  : outcome (option Q * option Q) :=
  match search true price_pattern user_preferences with
  | Some m =>
      match group 1 (captures m), group 2 (captures m) with
      | Some g1, Some g2 =>
          let min_price := remove_commas g1 in
          let max_price := remove_commas g2 in
          match float min_price with
          | Raises e => Raises e
          | Returns lo =>
              match float max_price with
              | Raises e => Raises e
              | Returns hi => Returns (Some lo, Some hi)
              end
          end
      | _, _ => Raises no_group
      end
  | None => Returns (None, None)
  end.

(** The suffixes that [build_search_query] appends, in order, as data. *)

Inductive suffix : Type :=
| SPro | SAir | SInch16 | SInch14 | SInch13
| S512GB | S1TB | S2TB
| S16GB | S32GB
| SColor (color : string).

Definition suffix_text (x : suffix) : string :=
  match x with
  | SPro => " Pro" | SAir => " Air"
  | SInch16 => " 16-inch" | SInch14 => " 14-inch" | SInch13 => " 13-inch"
  | S512GB => " 512GB" | S1TB => " 1TB" | S2TB => " 2TB"
  | S16GB => " 16GB" | S32GB => " 32GB"
  | SColor color => " " ++ color
  end.

Definition is_storage (x : suffix) : bool :=
  match x with S512GB | S1TB | S2TB => true | _ => false end.


Definition when (b : bool) (x : suffix) : list suffix := if b then [x] else [].

Definition query_suffixes (user_preferences : string) : list suffix :=
  let low := lower user_preferences in
  (when (contains "pro" low) SPro
   ++ when (contains "air" low) SAir
   ++ when (contains "16" user_preferences || contains "16-inch" low) SInch16
   ++ when (contains "14" user_preferences || contains "14-inch" low) SInch14
   ++ when (contains "13" user_preferences || contains "13-inch" low) SInch13
   ++ (if contains "512" user_preferences then [S512GB]
       else if contains "1tb" low || contains "1 tb" low then [S1TB]
       else if contains "2tb" low || contains "2 tb" low then [S2TB]
       else [])
   ++ (if contains "16gb" low || contains "16 gb" low then [S16GB]
       else if contains "32gb" low || contains "32 gb" low then [S32GB]
       else [])
   ++ flat_map (fun color => when (contains color low) (SColor color)) colors)%list.

Definition render_suffixes (l : list suffix) : string :=
  fold_right (fun x acc => suffix_text x ++ acc) "" l.

(** ** price_available and ensure_rupee_format (main.py lines 79-107) *)

Definition price_available (price_str : option string) : bool :=
  match price_str with
  | None => false
  | Some p => negb (is_empty p || String.eqb p "N/A")
  end.

(** [[\d,]+\.?\d*] *)
Definition numeric_pattern : regex :=
  RSeq (RPlus (CUnion CDigit (CChar ",")))
       (RSeq (ROpt (RLit ".")) (RStar CDigit)).

Definition usd_to_inr : Q := 167 # 2.   (* 83.5 *)

(** the integer nearest to [q], ties to even *)
Definition round_half_even (q : Q) : Z :=
  let n := Qnum q in
  let d := Zpos (Qden q) in
  let fl := (n / d)%Z in
  let r := (2 * (n mod d))%Z in
  if (r <? d)%Z then fl
  else if (d <? r)%Z then (fl + 1)%Z
  else if Z.even fl then fl else (fl + 1)%Z.

Definition decimal_digits (n : Z) : string :=
  NilZero.string_of_uint (N.to_uint (Z.to_N n)).

(** a comma before every group of three digits, counted from the right *)
Fixpoint group_thousands (s : string) : string :=
  match s with
  | EmptyString => EmptyString
  | String c s' =>
      String c
        (if negb (is_empty s') && (String.length s' mod 3 =? 0)%nat
         then String "," (group_thousands s')
         else group_thousands s')
  end.

Definition two_digits (n : Z) : string :=
  (if (n <? 10)%Z then "0" else "") ++ decimal_digits n.

(** [f"{x:,.2f}"] for a non-negative amount *)
Definition format_amount (x : Q) : string :=
  let cents := round_half_even (Qmult x (100 # 1)) in
  group_thousands (decimal_digits (cents / 100)) ++ "." ++ two_digits (cents mod 100).

(** The conversion branch, with the rendering of the converted amount left
    open: [render] stands for [f"{float(text) * usd_to_inr:,.2f}"], and a
    raised exception for the bare [except: pass]. *)
Definition ensure_rupee_format_with (render : string -> outcome string)
           (price_str : option string) : string :=
  match price_str with
  | None => "N/A"
  | Some price_str =>
      if is_empty price_str || String.eqb price_str "N/A" then "N/A"
      else
        let price_str := if negb (startswith rupee price_str)
                         then rupee ++ price_str else price_str in
        if contains "$" price_str then
          match search false numeric_pattern price_str with
          | Some price_value =>
              match render (remove_commas (whole price_value)) with
              | Returns amount => rupee ++ amount
              | Raises _ => price_str
              end
          | None => price_str
          end
        else price_str
  end.

Definition render_inr (text : string) : outcome string :=
  match float text with
  | Returns price_in_usd =>
      let price_in_inr := Qmult price_in_usd usd_to_inr in
      Returns (format_amount price_in_inr)
  | Raises e => Raises e
  end.

Definition ensure_rupee_format : option string -> string :=
  ensure_rupee_format_with render_inr.

(** ** Listings *)

(** One record of the API's [shopping_results]; a field is [None] when the
    key is absent from the dict. *)
Record listing : Type := Listing {
  title : option string;
  source : option string;
  price : option string;
  old_price : option string;
  link : option string;
  match_score : option Z
}.

(** [d.get(key, "")] *)
Definition get_text (field : option string) : string :=
  match field with Some s => s | None => "" end.

(** [product["match_score"] = score] *)
Definition set_match_score (score : Z) (product : listing) : listing :=
  {| title := title product; source := source product; price := price product;
     old_price := old_price product; link := link product;
     match_score := Some score |}.

(** ** filter_results (main.py lines 144-203) *)

Definition preferred_sellers : list string :=
  ["amazon"; "flipkart"; "croma"; "vijay sales"; "reliance digital"; "apple"].

(** the body of the loop over [products]: the score of one listing *)
Definition score_product (preferences_lower : string) (product : listing) : Z :=
  let title_lower := lower (get_text (title product)) in
  let source_lower := lower (get_text (source product)) in
  let score := 0%Z in
  let score := if contains "pro" preferences_lower && contains "pro" title_lower
               then (score + 5)%Z else score in
  let score := if contains "air" preferences_lower && contains "air" title_lower
               then (score + 5)%Z else score in
  let score := if contains "16" preferences_lower
                  && (contains "16" title_lower || contains "16-inch" title_lower)
               then (score + 4)%Z else score in
  let score := if contains "14" preferences_lower
                  && (contains "14" title_lower || contains "14-inch" title_lower)
               then (score + 4)%Z else score in
  let score := if contains "13" preferences_lower
                  && (contains "13" title_lower || contains "13-inch" title_lower)
               then (score + 4)%Z else score in
  let score := if contains "512" preferences_lower && contains "512" title_lower
               then (score + 3)%Z else score in
  let score := if (contains "1tb" preferences_lower || contains "1 tb" preferences_lower)
                  && (contains "1tb" title_lower || contains "1 tb" title_lower)
               then (score + 3)%Z else score in
  let score := if (contains "2tb" preferences_lower || contains "2 tb" preferences_lower)
                  && (contains "2tb" title_lower || contains "2 tb" title_lower)
               then (score + 3)%Z else score in
  let score := if (contains "16gb" preferences_lower || contains "16 gb" preferences_lower)
                  && (contains "16gb" title_lower || contains "16 gb" title_lower)
               then (score + 2)%Z else score in
  let score := if (contains "32gb" preferences_lower || contains "32 gb" preferences_lower)
                  && (contains "32gb" title_lower || contains "32 gb" title_lower)
               then (score + 2)%Z else score in
  let score := fold_left (fun score color =>
                            if contains color preferences_lower && contains color title_lower
                            then (score + 3)%Z else score)
                         colors score in
  let score := fold_left (fun score seller =>
                            if contains seller source_lower
                            then (score + 3)%Z else score)
                         preferred_sellers score in
  let score := if contains "new" preferences_lower
                  && (contains "refurbished" title_lower || contains "used" title_lower)
               then (score - 10)%Z else score in
  score.

(** [sorted(l, key=key, reverse=True)].  The built-in sort is stable, also
    with [reverse=True]; a stable sort has one possible result, computed here
    by insertion. *)
Section Sorted.
Context {A : Type} (key : A -> Z).

Fixpoint insert_desc (x : A) (l : list A) : list A :=
  match l with
  | [] => [x]
  | y :: l' => if (key y <=? key x)%Z then x :: l else y :: insert_desc x l'
  end.

Definition sorted_desc (l : list A) : list A :=
  fold_right insert_desc [] l.

(** [b] may follow [a] in a descending ranking *)
Definition ranked (a b : A) : Prop := (key b <= key a)%Z.
End Sorted.

(** [x.get("match_score", 0)] *)
Definition get_score (x : listing) : Z :=
  match match_score x with Some z => z | None => 0%Z end.

Definition filter_results (products : list listing) (user_preferences : string)
  : list listing :=
  let preferences_lower := lower user_preferences in
  let filtered_products :=
    map (fun product => set_match_score (score_product preferences_lower product) product)
        products in
  sorted_desc get_score filtered_products.


(** ** The scoring rubric as a table

    One row per attribute check of the specification: the markers looked for
    in the preference text, the markers looked for in the listing, and the
    points. *)

Record rubric_row : Type := Row {
  pref_markers : list string;
  item_markers : list string;
  points : Z
}.

Definition pro_row : rubric_row := Row ["pro"] ["pro"] 5.
Definition air_row : rubric_row := Row ["air"] ["air"] 5.
Definition screen16_row : rubric_row := Row ["16"] ["16"; "16-inch"] 4.
Definition screen14_row : rubric_row := Row ["14"] ["14"; "14-inch"] 4.
Definition screen13_row : rubric_row := Row ["13"] ["13"; "13-inch"] 4.
Definition storage512_row : rubric_row := Row ["512"] ["512"] 3.
Definition storage1tb_row : rubric_row := Row ["1tb"; "1 tb"] ["1tb"; "1 tb"] 3.
Definition storage2tb_row : rubric_row := Row ["2tb"; "2 tb"] ["2tb"; "2 tb"] 3.
Definition ram16_row : rubric_row := Row ["16gb"; "16 gb"] ["16gb"; "16 gb"] 2.
Definition ram32_row : rubric_row := Row ["32gb"; "32 gb"] ["32gb"; "32 gb"] 2.

Definition fixed_rows : list rubric_row :=
  [pro_row; air_row; screen16_row; screen14_row; screen13_row;
   storage512_row; storage1tb_row; storage2tb_row; ram16_row; ram32_row].

Definition color_rows : list rubric_row :=
  map (fun color => Row [color] [color] 3) colors.

Definition attribute_rows : list rubric_row := (fixed_rows ++ color_rows)%list.

(** the attribute rows other than the 16-inch row and the 16GB row *)
Definition other_rows : list rubric_row :=
  ([pro_row; air_row; screen14_row; screen13_row;
    storage512_row; storage1tb_row; storage2tb_row; ram32_row] ++ color_rows)%list.

Definition has_marker (markers : list string) (text : string) : bool :=
  existsb (fun m => contains m text) markers.

(** a row is awarded when the preference text has one of its markers and the
    listing text has one of the matching markers *)
Definition awarded (row : rubric_row) (preferences_lower item_text : string) : bool :=
  has_marker (pref_markers row) preferences_lower && has_marker (item_markers row) item_text.

Definition row_points (row : rubric_row) (preferences_lower item_text : string) : Z :=
  if awarded row preferences_lower item_text then points row else 0%Z.

Definition sum_Z (l : list Z) : Z := fold_right Z.add 0%Z l.

Definition seller_points (source_lower : string) : Z :=
  sum_Z (map (fun seller => if contains seller source_lower then 3 else 0)%Z preferred_sellers).

Definition penalty (preferences_lower title_lower : string) : Z :=
  if contains "new" preferences_lower
     && (contains "refurbished" title_lower || contains "used" title_lower)
  then (-10)%Z else 0%Z.

(** the rubric read with the listing's title as the text that is matched *)
Definition rubric_score (preferences_lower : string) (product : listing) : Z :=
  let title_lower := lower (get_text (title product)) in
  let source_lower := lower (get_text (source product)) in
  (sum_Z (map (fun row => row_points row preferences_lower title_lower) attribute_rows)
   + seller_points source_lower
   + penalty preferences_lower title_lower)%Z.

(** the rubric read as the specification words it: a row's marker may be in
    the title or in the source *)
Definition awarded_title_or_source (row : rubric_row) (preferences_lower : string)
           (product : listing) : bool :=
  has_marker (pref_markers row) preferences_lower
  && (has_marker (item_markers row) (lower (get_text (title product)))
      || has_marker (item_markers row) (lower (get_text (source product)))).

Definition rubric_score_title_or_source (preferences_lower : string)
           (product : listing) : Z :=
  let title_lower := lower (get_text (title product)) in
  let source_lower := lower (get_text (source product)) in
  (sum_Z (map (fun row =>
                 if awarded_title_or_source row preferences_lower product
                 then points row else 0)
              attribute_rows)
   + seller_points source_lower
   + penalty preferences_lower title_lower)%Z.

(** ** fetch_shopping_results (main.py lines 110-141) *)

(** Computations that may raise and that write notices to the page. *)
Module Ui.

Inductive notice : Type :=
| ErrorNotice (text : string).     (* st.error(text) *)

Definition M (A : Type) : Type := list notice -> outcome A * list notice.

Definition ret {A} (a : A) : M A := fun page => (Returns a, page).

Definition raise {A} (e : exn) : M A := fun page => (Raises e, page).

Definition bind {A B} (m : M A) (f : A -> M B) : M B :=
  fun page =>
    match m page with
    | (Returns a, page') => f a page'
    | (Raises e, page') => (Raises e, page')
    end.

(** [try: body except Exception as e: handler(e)] *)
Definition try_except {A} (body : M A) (handler : exn -> M A) : M A :=
  fun page =>
    match body page with
    | (Returns a, page') => (Returns a, page')
    | (Raises e, page') => handler e page'
    end.

Definition st_error (text : string) : M unit :=
  fun page => (Returns tt, (page ++ [ErrorNotice text])%list).

Definition lift {A} (o : outcome A) : M A := fun page => (o, page).

End Ui.
Import Ui.

Notation "x <- m ;; k" := (bind m (fun x => k))
  (at level 61, m at next level, right associativity).
Notation "m ;;; k" := (bind m (fun _ => k))
  (at level 61, right associativity).

Record params : Type := Params {
  engine : string;
  q : string;
  api_key : string;
  location : string;
  gl : string;
  hl : string;
  currency : string;
  price_range : option (Q * Q)
}.

Definition request (key query : string) (min_price max_price : option Q) : params :=
  {| engine := "google_shopping"; q := query; api_key := key;
     location := "New Delhi,Delhi,India"; gl := "in"; hl := "en"; currency := "INR";
     price_range := match min_price, max_price with
                    | Some lo, Some hi => Some (lo, hi)
                    | _, _ => None
                    end |}.

(** [if "price" in result: result["price"] = ensure_rupee_format(...)], and
    the same for [old_price] *)
Definition normalise_prices (result : listing) : listing :=
  {| title := title result; source := source result;
     price := match price result with
              | Some p => Some (ensure_rupee_format (Some p))
              | None => None
              end;
     old_price := match old_price result with
                  | Some p => Some (ensure_rupee_format (Some p))
                  | None => None
                  end;
     link := link result; match_score := match_score result |}.

Section Fetch.
(** the outbound call [GoogleSearch(params).get_dict()]: it raises, or it
    returns a dict whose "shopping_results" entry may be absent *)
Variable get_dict : params -> outcome (option (list listing)).
(** [st.session_state["SERPAPI_KEY"]], a KeyError when the key is absent *)
Variable serpapi_key : outcome string.

Definition fetch_shopping_results (query : string) (min_price max_price : option Q)
  : M (list listing) :=
  try_except
    (api_key <- lift serpapi_key ;;
     let params := request api_key query min_price max_price in
     results <- lift (get_dict params) ;;
     let shopping_results := match results with Some l => l | None => [] end in
     ret (map normalise_prices shopping_results))
    (fun e =>
       st_error ("Error fetching shopping results: " ++ exn_text e) ;;;
       ret []).
End Fetch.

Definition scenario_listing : listing :=
  {| title := Some "MacBook Pro 16-inch 512GB Silver"; source := Some "Amazon";
     price := None; old_price := None; link := None; match_score := None |}.

(** when [build_search_query] appends a given suffix *)
Definition appended (x : suffix) (user_preferences : string) : Prop :=
  let low := lower user_preferences in
  match x with
  | SPro => contains "pro" low = true
  | SAir => contains "air" low = true
  | SInch16 => contains "16" user_preferences || contains "16-inch" low = true
  | SInch14 => contains "14" user_preferences || contains "14-inch" low = true
  | SInch13 => contains "13" user_preferences || contains "13-inch" low = true
  | S512GB => contains "512" user_preferences = true
  | S1TB => contains "512" user_preferences = false
            /\ contains "1tb" low || contains "1 tb" low = true
  | S2TB => contains "512" user_preferences = false
            /\ contains "1tb" low || contains "1 tb" low = false
            /\ contains "2tb" low || contains "2 tb" low = true
  | S16GB => contains "16gb" low || contains "16 gb" low = true
  | S32GB => contains "16gb" low || contains "16 gb" low = false
             /\ contains "32gb" low || contains "32 gb" low = true
  | SColor color => In color colors /\ contains color low = true
  end.

(** a listing whose seller name, not its title, holds an attribute marker *)
Definition pro_store_listing : listing :=
  {| title := Some "Laptop"; source := Some "Pro Store";
     price := None; old_price := None; link := None; match_score := None |}.

Definition ram_listing : listing :=
  {| title := Some "Dell XPS 16GB RAM"; source := Some "Dell";
     price := None; old_price := None; link := None; match_score := None |}.



(** ** Price-range phrases *)

(** a number as the pattern reads it: digits and grouping commas, the first
    character a digit, then an optional dot and digits *)
Record numeral : Type := Numeral { int_part : string; frac_part : option string }.

Definition digit_or_comma (c : ascii) : bool := Ascii.eqb "," c || is_digit c.

Definition wf_numeral (n : numeral) : bool :=
  match int_part n with
  | EmptyString => false
  | String d body => is_digit d && all_chars digit_or_comma body
  end
  && match frac_part n with
     | None => true
     | Some f => negb (is_empty f) && all_chars is_digit f
     end.

Definition frac_text (n : numeral) : string :=
  match frac_part n with Some f => "." ++ f | None => "" end.

Definition numeral_text (n : numeral) : string := int_part n ++ frac_text n.

(** the value of the literal once its separators are stripped *)
Definition numeral_value (n : numeral) : Q :=
  decimal (remove_commas (int_part n))
          (match frac_part n with Some f => f | None => "" end).

Record price_phrase : Type := Phrase {
  lead : option (string * string);   (* "between" in any case, and the blanks after it *)
  glyph1 : bool;                     (* whether the first number carries the glyph *)
  number1 : numeral;
  blanks1 : string;
  separator : string;                (* "to", "and" or "-", in any case *)
  blanks2 : string;
  glyph2 : bool;
  number2 : numeral
}.

Definition glyph_text (present : bool) : string := if present then rupee else "".

Definition lead_text (l : option (string * string)) : string :=
  match l with Some (word, blanks) => word ++ blanks | None => "" end.

Definition phrase_text (p : price_phrase) : string :=
  lead_text (lead p) ++ glyph_text (glyph1 p) ++ numeral_text (number1 p)
  ++ blanks1 p ++ separator p ++ blanks2 p
  ++ glyph_text (glyph2 p) ++ numeral_text (number2 p).

Definition is_separator (sep : string) : bool :=
  String.eqb (lower sep) "to" || String.eqb (lower sep) "-" || String.eqb (lower sep) "and".

Definition wf_lead (l : option (string * string)) : bool :=
  match l with
  | None => true
  | Some (word, blanks) =>
      String.eqb (lower word) "between" && negb (is_empty blanks) && all_chars is_space blanks
  end.

Definition well_formed (p : price_phrase) : bool :=
  wf_lead (lead p) && wf_numeral (number1 p) && all_chars is_space (blanks1 p)
  && is_separator (separator p) && all_chars is_space (blanks2 p)
  && wf_numeral (number2 p).

(** [s] is empty or starts with a character outside [p] *)
Definition stops (p : ascii -> bool) (s : string) : bool :=
  match s with
  | EmptyString => true
  | String c _ => negb (p c)
  end.

Definition number_char (c : ascii) : bool := digit_or_comma c || Ascii.eqb "." c.

(** the first byte of the glyph literal *)
Definition glyph_head : ascii := ascii_of_nat 195.

(** a number or a glyph starts here *)
Definition head_ok (s : string) : bool :=
  match s with
  | String c _ => is_digit c || Ascii.eqb glyph_head c
  | EmptyString => false
  end.

Definition sep_head (c : ascii) : bool :=
  Ascii.eqb (lower_char c) "t" || Ascii.eqb (lower_char c) "-"
  || Ascii.eqb (lower_char c) "a".

(** ** Prices that carry the glyph *)

Definition no_dollar (c : ascii) : bool := negb (Ascii.eqb "$" c).

(** the part of [ensure_rupee_format_with] that follows the prefixing of the
    glyph (main.py lines 94-107) *)
Definition convert (render : string -> outcome string) (price_str : string) : string :=
  if contains "$" price_str then
    match search false numeric_pattern price_str with
    | Some price_value =>
        match render (remove_commas (whole price_value)) with
        | Returns amount => rupee ++ amount
        | Raises _ => price_str
        end
    | None => price_str
    end
  else price_str.

(** the notice that the handler of [fetch_shopping_results] writes for [e] *)
Definition fetch_notice (e : exn) : notice :=
  ErrorNotice ("Error fetching shopping results: " ++ exn_text e).

(** ** What a match of a pattern consists of *)

(** [derives ic r t g]: the text [t] is matched by [r], and [g] holds the
    groups captured on the way, the last one first *)
Inductive derives (ic : bool) : regex -> string -> groups -> Prop :=
| DLit (l t : string) :
    skip_literal ic l t = Some "" -> derives ic (RLit l) t []
| DStar (cl : charclass) (t : string) :
    all_chars (in_class cl) t = true -> derives ic (RStar cl) t []
| DPlus (cl : charclass) (c : ascii) (t : string) :
    all_chars (in_class cl) (String c t) = true -> derives ic (RPlus cl) (String c t) []
| DSeq (r1 r2 : regex) (t1 t2 : string) (g1 g2 : groups) :
    derives ic r1 t1 g1 -> derives ic r2 t2 g2 ->
    derives ic (RSeq r1 r2) (t1 ++ t2) (g2 ++ g1)%list
| DAltLeft (r1 r2 : regex) (t : string) (g : groups) :
    derives ic r1 t g -> derives ic (RAlt r1 r2) t g
| DAltRight (r1 r2 : regex) (t : string) (g : groups) :
    derives ic r2 t g -> derives ic (RAlt r1 r2) t g
| DOptTaken (r : regex) (t : string) (g : groups) :
    derives ic r t g -> derives ic (ROpt r) t g
| DOptSkipped (r : regex) :
    derives ic (ROpt r) "" []
| DGroup (n : nat) (r : regex) (t : string) (g : groups) :
    derives ic r t g -> derives ic (RGroup n r) t ((n, t) :: g).

(** whether a pattern is free of capturing groups *)
Fixpoint no_groups (r : regex) : bool :=
  match r with
  | RLit _ | RStar _ | RPlus _ => true
  | RSeq r1 r2 | RAlt r1 r2 => no_groups r1 && no_groups r2
  | ROpt r1 => no_groups r1
  | RGroup _ _ => false
  end.

Definition not_digit (c : ascii) : bool := negb (is_digit c).

(** a character of ASCII text; on such text [\d], [\s], [str.lower] and
    re.IGNORECASE of Python read what [is_digit], [is_space], [lower] and
    [skip_literal] read *)
Definition is_ascii (c : ascii) : bool := (nat_of_ascii c <? 128)%nat.

(** a numeral without a decimal part and with at most [digits] digits *)
Definition whole_number (n : numeral) (digits : nat) : bool :=
  match frac_part n with
  | None => (String.length (remove_commas (int_part n)) <=? digits)%nat
  | Some _ => false
  end.

(** the largest finite binary64, 2^1024 - 2^971 *)
Definition max_float : Q := inject_Z (2 ^ 1024 - 2 ^ 971).

(** ** show_payment_options (main.py lines 289-313) *)

(** what the function puts on the page: [st.markdown(body)], [st.text(body)] *)
Inductive element : Type :=
| MarkdownElement (body : string)
| TextElement (body : string).

Definition emi_line (price : Q) (months : Z) : element :=
  let monthly := Qdiv price (inject_Z months) in
  TextElement (rupee ++ format_amount monthly ++ "/month for "
               ++ decimal_digits months ++ " months").

(** The elements written, in order.  The function returns None in every
    case; an exception of [float] is swallowed by the bare [except]. *)
Definition show_payment_options (price_str : string) : list element :=
  if String.eqb price_str "N/A" then []
  else
    match search false numeric_pattern price_str with
    | Some price_value =>
        match float (remove_commas (whole price_value)) with
        | Returns price =>
            ([MarkdownElement "##### EMI Options:"]
             ++ map (emi_line price) [3; 6; 9; 12]%Z
             ++ [MarkdownElement "##### Bank Offers:";
                 TextElement "10% instant discount with HDFC cards";
                 TextElement "5% cashback with Amazon Pay ICICI card"])%list
        | Raises _ => []
        end
    | None => []
    end.

(** a character that [[\d,]] does not accept *)
Definition plain_char (c : ascii) : bool := negb (is_digit c || Ascii.eqb c ",").

(** the elements for a price that was read as [price] *)
Definition payment_options (price : Q) : list element :=
  [MarkdownElement "##### EMI Options:";
   emi_line price 3; emi_line price 6; emi_line price 9; emi_line price 12;
   MarkdownElement "##### Bank Offers:";
   TextElement "10% instant discount with HDFC cards";
   TextElement "5% cashback with Amazon Pay ICICI card"].

(** the number of hundredths that [f"{x:,.2f}"] writes *)
Definition cents (x : Q) : Z := round_half_even (Qmult x (100 # 1)).

(** the numeral that [format_amount] writes *)
Definition amount_numeral (x : Q) : numeral :=
  Numeral (group_thousands (decimal_digits (cents x / 100)))
          (Some (two_digits (cents x mod 100))).

(** the value of a digit string, read from the left *)
Fixpoint uint_value (acc : Z) (d : Decimal.uint) : Z :=
  match d with
  | Decimal.Nil => acc
  | Decimal.D0 d => uint_value (10 * acc + 0) d
  | Decimal.D1 d => uint_value (10 * acc + 1) d
  | Decimal.D2 d => uint_value (10 * acc + 2) d
  | Decimal.D3 d => uint_value (10 * acc + 3) d
  | Decimal.D4 d => uint_value (10 * acc + 4) d
  | Decimal.D5 d => uint_value (10 * acc + 5) d
  | Decimal.D6 d => uint_value (10 * acc + 6) d
  | Decimal.D7 d => uint_value (10 * acc + 7) d
  | Decimal.D8 d => uint_value (10 * acc + 8) d
  | Decimal.D9 d => uint_value (10 * acc + 9) d
  end.

(** every suffix that [build_search_query] can append, in the order of the
    statements that append them *)
Definition suffix_catalogue : list suffix :=
  ([SPro; SAir; SInch16; SInch14; SInch13; S512GB; S1TB; S2TB; S16GB; S32GB]
   ++ map SColor colors)%list.

Definition is_ram (x : suffix) : bool :=
  match x with S16GB | S32GB => true | _ => false end.

(** [l] is [m] with some elements left out *)
Inductive subsequence {A : Type} : list A -> list A -> Prop :=
| SubNil : subsequence [] []
| SubSkip (x : A) (l m : list A) : subsequence l m -> subsequence l (x :: m)
| SubKeep (x : A) (l m : list A) : subsequence l m -> subsequence (x :: l) (x :: m).

(** a title and a preference text that hold every attribute marker, and a
    source that names every preferred seller *)
Definition every_marker : string :=
  "pro air 16gb 14 13 512 1tb 2tb 32gb silver space grey space gray gold black white blue green purple red".

Definition every_seller : string :=
  "amazon flipkart croma vijay sales reliance digital apple".

Definition showcase_listing : listing :=
  {| title := Some every_marker; source := Some every_seller;
     price := None; old_price := None; link := None; match_score := None |}.

Definition second_hand_listing : listing :=
  {| title := Some "Used laptop"; source := Some "Corner shop";
     price := None; old_price := None; link := None; match_score := None |}.

(** ** get_follow_up_questions (main.py lines 240-274) *)

Definition macbook_questions : list string :=
  ["Do you prefer MacBook Pro or MacBook Air?";
   "What screen size are you looking for? (13-inch, 14-inch, 16-inch)";
   "How much storage do you need? (256GB, 512GB, 1TB)";
   "What's your budget range in rupees? (e.g., " ++ rupee ++ "90,000-" ++ rupee ++ "1,50,000)";
   "Any specific RAM requirements? (8GB, 16GB, 32GB)";
   "Do you prefer any particular color? (Silver, Space Grey, Gold)";
   "Are you looking for new or refurbished?";
   "Do you have any preferred seller? (Amazon, Flipkart, Apple Store, Croma, etc.)";
   "Do you need EMI options?"].

Definition iphone_questions : list string :=
  ["Which iPhone model are you interested in? (e.g., 14, 15, Pro, Pro Max)";
   "What storage capacity do you need? (128GB, 256GB, 512GB, 1TB)";
   "What's your budget range in rupees?";
   "Do you have a color preference?";
   "Are you looking for new or refurbished?";
   "Do you have any preferred seller? (Amazon, Flipkart, Apple Store, Croma, etc.)";
   "Are you interested in exchange offers?";
   "Do you need EMI options?"].

Definition general_questions : list string :=
  ["What's your budget range in rupees?";
   "Any specific features you're looking for?";
   "Do you have a brand preference?";
   "Are you looking for new or refurbished items?";
   "Do you have any preferred seller? (Amazon, Flipkart, etc.)";
   "Do you need EMI options?";
   "Is warranty an important factor for you?"].

Definition get_follow_up_questions (base_product : string) : list string :=
  if contains "macbook" (lower base_product) then macbook_questions
  else if contains "iphone" (lower base_product) then iphone_questions
  else general_questions.

(** ** The preference text of the form (main.py lines 396-403)

    [session_q i] is [st.session_state.get(f"q{i}")], the answer typed for
    question [i]; [user_name] is [st.session_state["user_name"]]. *)

(** [f"q{i}" in st.session_state and st.session_state[f"q{i}"]] *)
Definition answered (answer : option string) : bool :=
  match answer with
  | Some text => negb (is_empty text)
  | None => false
  end.

Definition collect_preferences (follow_up_questions : list string)
           (session_q : nat -> option string) (user_name : string) : string :=
  let preferences := "" in
  let preferences :=
    fold_left (fun preferences i =>
                 if answered (session_q i)
                 then preferences ++ nth i follow_up_questions ""
                      ++ ": " ++ get_text (session_q i) ++ ". "
                 else preferences)
              (seq 0 (List.length follow_up_questions)) preferences in
  if negb (is_empty user_name)
  then preferences ++ " For user: " ++ user_name ++ "."
  else preferences.

(** what one question adds to the preference text *)
Definition answer_piece (question : string) (answer : option string) : string :=
  if answered answer then question ++ ": " ++ get_text answer ++ ". " else "".

Definition name_piece (user_name : string) : string :=
  if negb (is_empty user_name) then " For user: " ++ user_name ++ "." else "".

Definition join (pieces : list string) : string := fold_right append "" pieces.

Definition condition_question : string := "Are you looking for new or refurbished".

Definition refurbished_listing : listing :=
  {| title := Some "MacBook Pro 14-inch (Refurbished)"; source := Some "Amazon";
     price := None; old_price := None; link := None; match_score := None |}.

(** the form with one answer: [text] typed for question [i] *)
Definition one_answer (i : nat) (text : string) (j : nat) : option string :=
  if (j =? i)%nat then Some text else None.

(** the range that the budget question of the MacBook form gives as its
    example *)
Definition budget_example : price_phrase :=
  {| lead := None; glyph1 := true; number1 := Numeral "90,000" None;
     blanks1 := ""; separator := "-"; blanks2 := "";
     glyph2 := true; number2 := Numeral "1,50,000" None |}.

(** a character that is neither a digit nor a dot *)
Definition lead_char (c : ascii) : bool := negb (is_digit c) && negb (Ascii.eqb "." c).

(** ** The handler of the "Find Products" button (main.py lines 405-424)

    The result is [Some filtered_products] when the search was performed
    (the session state is updated and the page is rerun) and [None] when
    it was not. *)



(** a price field after the normalisation *)
Definition normalised (field : option string) : Prop :=
  forall text, field = Some text -> text = "N/A" \/ startswith rupee text = true.

(** * Properties *)

(** ** Facts about text *)

Module TextFacts.

Lemma startswith_true (p s : string) :
  startswith p s = true <-> exists r, s = p ++ r.
Proof.
  revert s; induction p as [|a p IH]; intros s; simpl.
  - split; [intros _; exists s; reflexivity | reflexivity].
  - destruct s as [|b s].
    + split; [discriminate | intros [r Hr]; discriminate].
    + rewrite andb_true_iff, Ascii.eqb_eq, IH. split.
      * intros [-> [r ->]]. exists r; reflexivity.
      * intros [r Hr]. injection Hr as -> ->. split; [reflexivity | exists r; reflexivity].
Qed.

Lemma startswith_app (p r : string) : startswith p (p ++ r) = true.
Proof. apply startswith_true. exists r; reflexivity. Qed.

Lemma append_assoc (a b c : string) : (a ++ b) ++ c = a ++ (b ++ c).
Proof. induction a as [|x a IH]; simpl; [reflexivity | now rewrite IH]. Qed.

Lemma append_empty_r (a : string) : a ++ "" = a.
Proof. induction a as [|x a IH]; simpl; [reflexivity | now rewrite IH]. Qed.

Lemma contains_true (m s : string) :
  contains m s = true <-> exists a b, s = a ++ m ++ b.
Proof.
  induction s as [|c s IH].
  - simpl. rewrite orb_false_r, startswith_true. split.
    + intros [r Hr]. exists "", r. exact Hr.
    + intros [a [b H]]. destruct a; [exists b; exact H | discriminate].
  - cbn [contains]. rewrite orb_true_iff, startswith_true, IH. split.
    + intros [[r Hr] | [a [b H]]].
      * exists "", r. exact Hr.
      * exists (String c a), b. simpl. now rewrite H.
    + intros [a [b H]]. destruct a as [|x a].
      * left. exists b. exact H.
      * right. simpl in H. injection H as _ H. exists a, b. exact H.
Qed.

(** text added at the end never hides a marker *)
Lemma contains_app_l (m s u : string) :
  contains m s = true -> contains m (s ++ u) = true.
Proof.
  rewrite !contains_true. intros [a [b ->]].
  exists a, (b ++ u). now rewrite !append_assoc.
Qed.

(** a marker that lies inside a found marker is found too *)
Lemma contains_trans (m n s : string) :
  contains m n = true -> contains n s = true -> contains m s = true.
Proof.
  rewrite !contains_true. intros [a [b ->]] [c [d ->]].
  exists (c ++ a), (b ++ d). now rewrite !append_assoc.
Qed.

Lemma lower_app (a b : string) : lower (a ++ b) = lower a ++ lower b.
Proof. induction a as [|x a IH]; simpl; [reflexivity | now rewrite IH]. Qed.

Lemma contains_lower (m s : string) :
  contains m s = true -> contains (lower m) (lower s) = true.
Proof.
  rewrite !contains_true. intros [a [b ->]].
  exists (lower a), (lower b). now rewrite !lower_app.
Qed.

Lemma contains_lower_app_l (m s u : string) :
  contains m (lower s) = true -> contains m (lower (s ++ u)) = true.
Proof. intros H. rewrite lower_app. now apply contains_app_l. Qed.

Lemma length_app (a b : string) :
  String.length (a ++ b) = (String.length a + String.length b)%nat.
Proof. induction a as [|x a IH]; simpl; [reflexivity | now rewrite IH]. Qed.

Lemma substring_prefix (a b : string) : substring 0 (String.length a) (a ++ b) = a.
Proof. induction a as [|x a IH]; simpl; [now destruct b | now rewrite IH]. Qed.

Lemma consumed_app (a b : string) : consumed (a ++ b) b = a.
Proof.
  unfold consumed. rewrite length_app.
  replace (String.length a + String.length b - String.length b)%nat
    with (String.length a) by lia.
  apply substring_prefix.
Qed.

End TextFacts.
Import TextFacts.

(** ** The query builder *)

Section QueryFacts.

Lemma render_suffixes_app (l1 l2 : list suffix) :
  render_suffixes (l1 ++ l2) = render_suffixes l1 ++ render_suffixes l2.
Proof.
  induction l1 as [|x l1 IH]; simpl; [reflexivity|].
  now rewrite IH, append_assoc.
Qed.

Lemma append_when (b : bool) (x : suffix) (query : string) :
  (if b then query ++ suffix_text x else query) = query ++ render_suffixes (when b x).
Proof.
  destruct b; simpl; [now rewrite append_empty_r | now rewrite append_empty_r].
Qed.

(** the loop over [colors], for any list of colors and any test *)
Lemma color_loop (test : string -> bool) (l : list string) (query : string) :
  fold_left (fun query color => if test color then query ++ " " ++ color else query) l query
  = query ++ render_suffixes (flat_map (fun color => when (test color) (SColor color)) l).
Proof.
  revert query; induction l as [|c l IH]; intros query; simpl.
  - now rewrite append_empty_r.
  - rewrite IH, render_suffixes_app, <- append_assoc. f_equal.
    apply (append_when (test c) (SColor c)).
Qed.

(** [build_search_query] appends exactly the suffixes of [query_suffixes]. *)
Lemma build_search_query_suffixes (base_product user_preferences : string) :
  build_search_query base_product user_preferences
  = base_product ++ render_suffixes (query_suffixes user_preferences).
Proof.
  unfold build_search_query, query_suffixes.
  rewrite color_loop.
  generalize (flat_map
                (fun color => when (contains color (lower user_preferences)) (SColor color))
                colors) as cs.
  intros cs.
  rewrite !render_suffixes_app.
  change (base_product ++ " Pro") with (base_product ++ suffix_text SPro).
  rewrite (append_when _ SPro).
  set (q1 := base_product ++ _).
  change (q1 ++ " Air") with (q1 ++ suffix_text SAir).
  rewrite (append_when _ SAir).
  set (q2 := q1 ++ _).
  change (q2 ++ " 16-inch") with (q2 ++ suffix_text SInch16).
  rewrite (append_when _ SInch16).
  set (q3 := q2 ++ _).
  change (q3 ++ " 14-inch") with (q3 ++ suffix_text SInch14).
  rewrite (append_when _ SInch14).
  set (q4 := q3 ++ _).
  change (q4 ++ " 13-inch") with (q4 ++ suffix_text SInch13).
  rewrite (append_when _ SInch13).
  set (q5 := q4 ++ _).
  subst q1 q2 q3 q4 q5.
  destruct (contains "512" user_preferences);
    destruct (contains "1tb" (lower user_preferences) || contains "1 tb" (lower user_preferences));
    destruct (contains "2tb" (lower user_preferences) || contains "2 tb" (lower user_preferences));
    destruct (contains "16gb" (lower user_preferences) || contains "16 gb" (lower user_preferences));
    destruct (contains "32gb" (lower user_preferences) || contains "32 gb" (lower user_preferences));
    rewrite ?append_assoc; simpl; rewrite ?append_empty_r; reflexivity.
Qed.

Lemma filter_storage_when (b : bool) (x : suffix) :
  is_storage x = false -> filter is_storage (when b x) = [].
Proof. intros H. destruct b; simpl; [now rewrite H | reflexivity]. Qed.

Lemma filter_storage_colors (test : string -> bool) (l : list string) :
  filter is_storage (flat_map (fun color => when (test color) (SColor color)) l) = [].
Proof.
  induction l as [|c l IH]; simpl; [reflexivity|].
  rewrite filter_app, IH, app_nil_r. now apply filter_storage_when.
Qed.

Lemma in_when (b : bool) (x y : suffix) : In y (when b x) <-> b = true /\ y = x.
Proof.
  destruct b; simpl; split.
  - intros [<- | []]. now split.
  - intros [_ ->]. now left.
  - intros [].
  - intros [H _]. discriminate.
Qed.

End QueryFacts.

(** C5.  For every base product and every preference text that holds both a
    512GB marker ("512") and a 1TB marker ("1tb" or "1 tb", in any case), the
    query is the base product followed by the rendered suffixes, and among
    those suffixes exactly one is a storage size, namely 512GB. *)
Theorem storage_suffix_exclusive (base_product user_preferences : string) :
  contains "512" user_preferences = true ->
  contains "1tb" (lower user_preferences) || contains "1 tb" (lower user_preferences) = true ->
  build_search_query base_product user_preferences
  = base_product ++ render_suffixes (query_suffixes user_preferences)
  /\ filter is_storage (query_suffixes user_preferences) = [S512GB].
Proof.
  intros H512 _. split; [apply build_search_query_suffixes|].
  unfold query_suffixes. rewrite H512.
  rewrite !filter_app.
  rewrite !filter_storage_when by reflexivity.
  rewrite filter_storage_colors.
  destruct (contains "16gb" (lower user_preferences) || contains "16 gb" (lower user_preferences));
    [reflexivity|].
  destruct (contains "32gb" (lower user_preferences) || contains "32 gb" (lower user_preferences));
    reflexivity.
Qed.

Lemma storage_suffix_exclusive_witness :
  build_search_query "MacBook M3" "512GB or 1TB"
  = "MacBook M3" ++ render_suffixes (query_suffixes "512GB or 1TB")
  /\ filter is_storage (query_suffixes "512GB or 1TB") = [S512GB].
Proof.
  apply (storage_suffix_exclusive "MacBook M3" "512GB or 1TB"); reflexivity.
Defined.

(** ** Detection of attribute keywords *)

Section Detection.

Lemma in_color_suffixes (test : string -> bool) (l : list string) (x : suffix) :
  In x (flat_map (fun color => when (test color) (SColor color)) l)
  <-> exists color, x = SColor color /\ In color l /\ test color = true.
Proof.
  rewrite in_flat_map. split.
  - intros [c [Hc Hx]]. apply in_when in Hx as [Ht ->]. now exists c.
  - intros [c [-> [Hc Ht]]]. exists c. split; [exact Hc|]. now apply in_when.
Qed.

Lemma in_storage_chain (b1 b2 b3 : bool) (x : suffix) :
  In x (if b1 then [S512GB] else if b2 then [S1TB] else if b3 then [S2TB] else [])
  <-> (x = S512GB /\ b1 = true)
      \/ (x = S1TB /\ b1 = false /\ b2 = true)
      \/ (x = S2TB /\ b1 = false /\ b2 = false /\ b3 = true).
Proof.
  destruct b1, b2, b3; simpl; intuition (congruence || discriminate).
Qed.

Lemma in_ram_chain (b1 b2 : bool) (x : suffix) :
  In x (if b1 then [S16GB] else if b2 then [S32GB] else [])
  <-> (x = S16GB /\ b1 = true) \/ (x = S32GB /\ b1 = false /\ b2 = true).
Proof.
  destruct b1, b2; simpl; intuition (congruence || discriminate).
Qed.

(** a suffix is in the query exactly when its condition of the source holds *)
Lemma in_query_suffixes (x : suffix) (user_preferences : string) :
  In x (query_suffixes user_preferences) <-> appended x user_preferences.
Proof.
  unfold query_suffixes.
  rewrite !in_app_iff, !in_when, in_storage_chain, in_ram_chain, in_color_suffixes.
  unfold appended. cbv zeta.
  generalize (contains "pro" (lower user_preferences)).
  generalize (contains "air" (lower user_preferences)).
  generalize (contains "16" user_preferences || contains "16-inch" (lower user_preferences)).
  generalize (contains "14" user_preferences || contains "14-inch" (lower user_preferences)).
  generalize (contains "13" user_preferences || contains "13-inch" (lower user_preferences)).
  generalize (contains "512" user_preferences).
  generalize (contains "1tb" (lower user_preferences) || contains "1 tb" (lower user_preferences)).
  generalize (contains "2tb" (lower user_preferences) || contains "2 tb" (lower user_preferences)).
  generalize (contains "16gb" (lower user_preferences) || contains "16 gb" (lower user_preferences)).
  generalize (contains "32gb" (lower user_preferences) || contains "32 gb" (lower user_preferences)).
  intros b32 b16 b2 b1 b512 i13 i14 i16 bair bpro.
  destruct x; (split; [intros H | intros H]).
  all: try (decompose [or and ex] H; clear H; try discriminate; try congruence; now auto).
  all: try (now intuition auto).
  - decompose [or and ex] H; clear H; try discriminate.
    match goal with H : SColor _ = SColor _ |- _ => injection H as -> end. now split.
  - do 7 right. exists color. destruct H. now repeat split.
Qed.



End Detection.



(** ** Scoring *)

Section ScoreFacts.

Lemma if_add (b : bool) (score n : Z) :
  (if b then (score + n)%Z else score) = (score + (if b then n else 0))%Z.
Proof. destruct b; lia. Qed.

Lemma sum_Z_app (l1 l2 : list Z) : sum_Z (l1 ++ l2) = (sum_Z l1 + sum_Z l2)%Z.
Proof. induction l1 as [|x l1 IH]; simpl; [reflexivity | rewrite IH; lia]. Qed.

(** a loop that adds [n] for every element passing [test] *)
Lemma score_loop (test : string -> bool) (n : Z) (l : list string) (score : Z) :
  fold_left (fun score x => if test x then (score + n)%Z else score) l score
  = (score + sum_Z (map (fun x => if test x then n else 0%Z) l))%Z.
Proof.
  revert score; induction l as [|x l IH]; intros score; simpl.
  - lia.
  - rewrite IH, if_add. lia.
Qed.

Lemma has_marker_one (m text : string) : has_marker [m] text = contains m text.
Proof. unfold has_marker; simpl. apply orb_false_r. Qed.

Lemma has_marker_two (m1 m2 text : string) :
  has_marker [m1; m2] text = contains m1 text || contains m2 text.
Proof. unfold has_marker; simpl. now rewrite orb_false_r. Qed.

Lemma color_rows_points (pl tl : string) :
  map (fun row => row_points row pl tl) color_rows
  = map (fun color => if contains color pl && contains color tl then 3%Z else 0%Z) colors.
Proof.
  unfold color_rows. rewrite map_map. apply map_ext. intros c.
  unfold row_points, awarded; cbn [pref_markers item_markers points].
  now rewrite !has_marker_one.
Qed.

Lemma fixed_rows_points (pl tl : string) :
  sum_Z (map (fun row => row_points row pl tl) fixed_rows)
  = ((if contains "pro" pl && contains "pro" tl then 5 else 0)
     + (if contains "air" pl && contains "air" tl then 5 else 0)
     + (if contains "16" pl && (contains "16" tl || contains "16-inch" tl) then 4 else 0)
     + (if contains "14" pl && (contains "14" tl || contains "14-inch" tl) then 4 else 0)
     + (if contains "13" pl && (contains "13" tl || contains "13-inch" tl) then 4 else 0)
     + (if contains "512" pl && contains "512" tl then 3 else 0)
     + (if (contains "1tb" pl || contains "1 tb" pl)
           && (contains "1tb" tl || contains "1 tb" tl) then 3 else 0)
     + (if (contains "2tb" pl || contains "2 tb" pl)
           && (contains "2tb" tl || contains "2 tb" tl) then 3 else 0)
     + (if (contains "16gb" pl || contains "16 gb" pl)
           && (contains "16gb" tl || contains "16 gb" tl) then 2 else 0)
     + (if (contains "32gb" pl || contains "32 gb" pl)
           && (contains "32gb" tl || contains "32 gb" tl) then 2 else 0))%Z.
Proof.
  unfold fixed_rows, sum_Z, row_points, awarded.
  unfold pro_row, air_row, screen16_row, screen14_row, screen13_row, storage512_row,
    storage1tb_row, storage2tb_row, ram16_row, ram32_row.
  cbn [map fold_right pref_markers item_markers points].
  rewrite !has_marker_one, !has_marker_two.
  rewrite Z.add_0_r, !Z.add_assoc. reflexivity.
Qed.

(** the loop body computes the rubric, with the title as the matched text *)
Lemma score_product_rubric (preferences_lower : string) (product : listing) :
  score_product preferences_lower product = rubric_score preferences_lower product.
Proof.
  unfold rubric_score, seller_points, penalty, attribute_rows.
  cbv zeta.
  rewrite map_app, sum_Z_app, color_rows_points, fixed_rows_points.
  unfold score_product. cbv zeta.
  rewrite !score_loop.
  set (tl := lower (get_text (title product))).
  set (sl := lower (get_text (source product))).
  set (cs := sum_Z (map _ colors)).
  set (ss := sum_Z (map _ preferred_sellers)).
  rewrite !if_add, !Z.add_0_l.
  match goal with
  | |- context [if ?b then (?s - 10)%Z else ?s] =>
      replace (if b then (s - 10)%Z else s) with (s + (if b then (-10) else 0))%Z
        by (destruct b; lia)
  end.
  reflexivity.
Qed.

(** the rubric with the 16-inch row and the 16GB row taken out of the sum *)
Lemma rubric_score_split (pl : string) (product : listing) :
  rubric_score pl product
  = (row_points screen16_row pl (lower (get_text (title product)))
     + row_points ram16_row pl (lower (get_text (title product)))
     + sum_Z (map (fun row => row_points row pl (lower (get_text (title product))))
                  other_rows)
     + seller_points (lower (get_text (source product)))
     + penalty pl (lower (get_text (title product))))%Z.
Proof.
  unfold rubric_score, attribute_rows, other_rows, fixed_rows. cbv zeta.
  rewrite !map_app, !sum_Z_app.
  set (cs := sum_Z (map _ color_rows)).
  set (f := fun row => row_points row pl (lower (get_text (title product)))).
  change (row_points screen16_row pl (lower (get_text (title product))))
    with (f screen16_row).
  change (row_points ram16_row pl (lower (get_text (title product))))
    with (f ram16_row).
  generalize f; intros g.
  unfold sum_Z. cbn [map fold_right]. lia.
Qed.

End ScoreFacts.

(** C6, as stated, fails: the attribute rows never look at the source.  For
    the preference text "pro" and a listing titled "Laptop" sold by
    "Pro Store" the code scores 0, whereas a rubric whose markers may be found
    in the title or in the source would award the 5 points of the "pro" row. *)
Lemma rubric_title_or_source_fails :
  ~ (forall user_preferences product,
        score_product (lower user_preferences) product
        = rubric_score_title_or_source (lower user_preferences) product).
Proof.
  intros H. specialize (H "pro" pro_store_listing).
  vm_compute in H. discriminate H.
Qed.

(** C6, amended.  For every listing and every preference text the score is
    the sum, over the attribute rows (pro, air, the screen sizes, the storage
    sizes, the RAM sizes and the ten colours), of the row's points when the
    lower-cased preference text holds one of the row's markers and the
    lower-cased title holds one of the matching markers, and 0 otherwise;
    plus the seller points, which alone read the source, and the penalty. *)
Theorem attribute_rows_on_title (user_preferences : string) (product : listing) :
  let pl := lower user_preferences in
  let tl := lower (get_text (title product)) in
  score_product pl product
  = (sum_Z (map (fun row =>
                   if has_marker (pref_markers row) pl && has_marker (item_markers row) tl
                   then points row else 0)
                attribute_rows)
     + seller_points (lower (get_text (source product)))
     + penalty pl tl)%Z.
Proof.
  cbv zeta. rewrite score_product_rubric. reflexivity.
Qed.

(** C10.  When the lower-cased title holds "16gb" and the preference text
    holds "16gb", the 16-inch screen row awards its 4 points and the 16GB RAM
    row its 2 points, so the score is 6 plus what the other rows, the sellers
    and the penalty give. *)
Theorem ram_marker_also_screen_size (user_preferences : string) (product : listing) :
  contains "16gb" (lower (get_text (title product))) = true ->
  contains "16gb" user_preferences = true ->
  let pl := lower user_preferences in
  let tl := lower (get_text (title product)) in
  row_points screen16_row pl tl = 4%Z
  /\ row_points ram16_row pl tl = 2%Z
  /\ score_product pl product
     = (4 + 2
        + sum_Z (map (fun row => row_points row pl tl) other_rows)
        + seller_points (lower (get_text (source product)))
        + penalty pl tl)%Z.
Proof.
  intros Ht Hp. cbv zeta.
  apply contains_lower in Hp. change (lower "16gb") with "16gb" in Hp.
  assert (H16 : contains "16" "16gb" = true) by reflexivity.
  assert (Hs : row_points screen16_row (lower user_preferences)
                 (lower (get_text (title product))) = 4%Z).
  { unfold row_points, awarded, screen16_row.
    cbn [pref_markers item_markers points].
    rewrite has_marker_one, has_marker_two.
    rewrite (contains_trans _ _ _ H16 Hp), (contains_trans _ _ _ H16 Ht).
    reflexivity. }
  assert (Hr : row_points ram16_row (lower user_preferences)
                 (lower (get_text (title product))) = 2%Z).
  { unfold row_points, awarded, ram16_row.
    cbn [pref_markers item_markers points].
    rewrite !has_marker_two, Hp, Ht. reflexivity. }
  split; [exact Hs | split; [exact Hr |]].
  rewrite score_product_rubric, rubric_score_split, Hs, Hr. reflexivity.
Qed.

Lemma ram_marker_also_screen_size_witness :
  row_points screen16_row (lower "need 16gb") (lower (get_text (title ram_listing))) = 4%Z
  /\ row_points ram16_row (lower "need 16gb") (lower (get_text (title ram_listing))) = 2%Z
  /\ score_product (lower "need 16gb") ram_listing
     = (4 + 2
        + sum_Z (map (fun row => row_points row (lower "need 16gb")
                                   (lower (get_text (title ram_listing))))
                     other_rows)
        + seller_points (lower (get_text (source ram_listing)))
        + penalty (lower "need 16gb") (lower (get_text (title ram_listing))))%Z.
Proof.
  apply (ram_marker_also_screen_size "need 16gb" ram_listing); reflexivity.
Defined.

(** ** Ranking *)

Section SortFacts.
Context {A : Type} (key : A -> Z).

Lemma insert_desc_perm (x : A) (l : list A) :
  Permutation (insert_desc key x l) (x :: l).
Proof.
  induction l as [|y l IH]; simpl.
  - apply Permutation_refl.
  - destruct (key y <=? key x)%Z.
    + apply Permutation_refl.
    + eapply perm_trans; [apply perm_skip, IH | apply perm_swap].
Qed.

Lemma sorted_desc_perm (l : list A) : Permutation (sorted_desc key l) l.
Proof.
  induction l as [|x l IH]; simpl.
  - apply perm_nil.
  - eapply perm_trans; [apply insert_desc_perm | apply perm_skip, IH].
Qed.

Lemma insert_desc_below (y x : A) (l : list A) :
  ranked key y x -> Forall (ranked key y) l -> Forall (ranked key y) (insert_desc key x l).
Proof.
  intros Hyx Hl.
  apply (Permutation_Forall (Permutation_sym (insert_desc_perm x l))).
  now constructor.
Qed.

Lemma insert_desc_sorted (x : A) (l : list A) :
  StronglySorted (ranked key) l -> StronglySorted (ranked key) (insert_desc key x l).
Proof.
  induction 1 as [|y l Hs IH Hy]; simpl.
  - constructor; constructor.
  - destruct (key y <=? key x)%Z eqn:E.
    + apply Z.leb_le in E. constructor.
      * now constructor.
      * constructor; [exact E|].
        eapply Forall_impl; [|exact Hy]. unfold ranked. intros z Hz. lia.
    + apply Z.leb_gt in E. constructor; [exact IH|].
      apply insert_desc_below; [unfold ranked; lia | exact Hy].
Qed.

Lemma sorted_desc_sorted (l : list A) : StronglySorted (ranked key) (sorted_desc key l).
Proof.
  induction l as [|x l IH]; simpl; [constructor | now apply insert_desc_sorted].
Qed.



End SortFacts.


(** ** The matcher on price-range phrases *)

Section MatcherFacts.
Context {R : Type}.
Implicit Types (k : string -> groups -> option R) (g : groups) (x : R).

Lemma drop_while_app (p : ascii -> bool) (w rest : string) :
  all_chars p w = true -> stops p rest = true -> drop_while p (w ++ rest) = rest.
Proof.
  intros Hw Hr. induction w as [|c w IH].
  - destruct rest as [|c r]; [reflexivity|]. simpl in *.
    apply negb_true_iff in Hr. now rewrite Hr.
  - simpl in *. apply andb_true_iff in Hw as [Hc Hw]. rewrite Hc. now apply IH.
Qed.

Lemma take_while_app (p : ascii -> bool) (w rest : string) :
  all_chars p w = true -> stops p rest = true -> take_while p (w ++ rest) = w.
Proof.
  intros Hw Hr. induction w as [|c w IH].
  - destruct rest as [|c r]; [reflexivity|]. simpl in *.
    apply negb_true_iff in Hr. now rewrite Hr.
  - simpl in *. apply andb_true_iff in Hw as [Hc Hw]. rewrite Hc. f_equal. now apply IH.
Qed.

(** the greedy star succeeds with the longest run when the rest of the
    pattern accepts what follows it *)
Lemma star_class_longest (cl : charclass) (kk : string -> option R) (s : string) x :
  kk (drop_while (in_class cl) s) = Some x -> star_class cl kk s = Some x.
Proof.
  induction s as [|c s IH]; simpl; [trivial|].
  destruct (in_class cl c); [|trivial].
  intros H. now rewrite (IH H).
Qed.

Lemma rmatch_seq ic (r1 r2 : regex) k (s : string) g :
  rmatch ic (RSeq r1 r2) k s g = rmatch ic r1 (rmatch ic r2 k) s g.
Proof. reflexivity. Qed.

Lemma match_star_longest ic (cl : charclass) (s : string) k g x :
  k (drop_while (in_class cl) s) g = Some x -> rmatch ic (RStar cl) k s g = Some x.
Proof. intros H. cbn [rmatch]. now apply star_class_longest. Qed.

Lemma match_plus_longest ic (cl : charclass) (c : ascii) (s : string) k g x :
  in_class cl c = true ->
  k (drop_while (in_class cl) s) g = Some x ->
  rmatch ic (RPlus cl) k (String c s) g = Some x.
Proof. intros Hc H. cbn [rmatch]. rewrite Hc. now apply star_class_longest. Qed.

Lemma match_star ic (cl : charclass) (w rest : string) k g x :
  all_chars (in_class cl) w = true -> stops (in_class cl) rest = true ->
  k rest g = Some x -> rmatch ic (RStar cl) k (w ++ rest) g = Some x.
Proof.
  intros Hw Hr Hk. cbn [rmatch]. apply star_class_longest.
  now rewrite drop_while_app.
Qed.

Lemma match_plus ic (cl : charclass) (w rest : string) k g x :
  is_empty w = false ->
  all_chars (in_class cl) w = true -> stops (in_class cl) rest = true ->
  k rest g = Some x -> rmatch ic (RPlus cl) k (w ++ rest) g = Some x.
Proof.
  intros He Hw Hr Hk. destruct w as [|c w]; [discriminate|].
  cbn [rmatch append]. cbn [all_chars] in Hw. apply andb_true_iff in Hw as [Hc Hw].
  rewrite Hc. apply star_class_longest. now rewrite drop_while_app.
Qed.

Lemma match_lit ic (l w rest : string) k g x :
  skip_literal ic l (w ++ rest) = Some rest ->
  k rest g = Some x -> rmatch ic (RLit l) k (w ++ rest) g = Some x.
Proof. intros Hs Hk. cbn [rmatch]. now rewrite Hs. Qed.

Lemma match_lit_fails ic (l s : string) k g :
  skip_literal ic l s = None -> rmatch ic (RLit l) k s g = None.
Proof. intros H. cbn [rmatch]. now rewrite H. Qed.

Lemma match_alt_left ic (r1 r2 : regex) (s : string) k g x :
  rmatch ic r1 k s g = Some x -> rmatch ic (RAlt r1 r2) k s g = Some x.
Proof. intros H. cbn [rmatch]. now rewrite H. Qed.

Lemma match_alt_right ic (r1 r2 : regex) (s : string) k g x :
  rmatch ic r1 k s g = None -> rmatch ic r2 k s g = Some x ->
  rmatch ic (RAlt r1 r2) k s g = Some x.
Proof. intros H1 H2. cbn [rmatch]. now rewrite H1. Qed.

Lemma match_opt_taken ic (r : regex) (s : string) k g x :
  rmatch ic r k s g = Some x -> rmatch ic (ROpt r) k s g = Some x.
Proof. intros H. cbn [rmatch]. now rewrite H. Qed.

Lemma match_opt_skipped ic (r : regex) (s : string) k g x :
  rmatch ic r k s g = None -> k s g = Some x -> rmatch ic (ROpt r) k s g = Some x.
Proof. intros H Hk. cbn [rmatch]. now rewrite H. Qed.

Lemma match_group ic (n : nat) (r : regex) (w rest : string) k g x :
  (forall k', k' rest g = Some x -> rmatch ic r k' (w ++ rest) g = Some x) ->
  k rest ((n, w) :: g) = Some x ->
  rmatch ic (RGroup n r) k (w ++ rest) g = Some x.
Proof.
  intros Hr Hk. cbn [rmatch]. apply Hr. now rewrite consumed_app.
Qed.

End MatcherFacts.

Section LiteralFacts.

Lemma skip_literal_same (l rest : string) : skip_literal true l (l ++ rest) = Some rest.
Proof.
  induction l as [|a l IH]; [reflexivity|].
  cbn [skip_literal append]. now rewrite Ascii.eqb_refl.
Qed.

(** with IGNORECASE a literal accepts every spelling of itself *)
Lemma skip_literal_any_case (l w rest : string) :
  lower w = lower l -> skip_literal true l (w ++ rest) = Some rest.
Proof.
  revert w. induction l as [|a l IH]; intros [|c w] H; try discriminate.
  - reflexivity.
  - cbn [lower] in H. injection H as Hc Hw.
    cbn [skip_literal append]. rewrite Hc, Ascii.eqb_refl. now apply IH.
Qed.

Lemma skip_literal_mismatch (a c : ascii) (l s : string) :
  Ascii.eqb (lower_char a) (lower_char c) = false ->
  skip_literal true (String a l) (String c s) = None.
Proof. intros H. cbn [skip_literal]. now rewrite H. Qed.

Lemma lower_char_digit (c : ascii) : is_digit c = true -> lower_char c = c.
Proof.
  unfold lower_char, is_upper, is_digit. intros H.
  apply andb_true_iff in H as [_ H]. apply Nat.leb_le in H.
  destruct (65 <=? nat_of_ascii c)%nat eqn:E; [|reflexivity].
  apply Nat.leb_le in E. lia.
Qed.

Lemma lower_char_space (c : ascii) : is_space c = true -> lower_char c = c.
Proof.
  unfold lower_char, is_upper, is_space. intros H.
  destruct (65 <=? nat_of_ascii c)%nat eqn:E; [|reflexivity].
  apply Nat.leb_le in E.
  apply orb_true_iff in H as [H | H]; apply andb_true_iff in H as [_ H];
    apply Nat.leb_le in H; lia.
Qed.

End LiteralFacts.


Section CharFacts.

Ltac by_cases_on c :=
  destruct c as [[] [] [] [] [] [] [] []]; try discriminate; reflexivity.

Lemma dot_any_case (c : ascii) :
  Ascii.eqb (lower_char ".") (lower_char c) = Ascii.eqb "." c.
Proof. by_cases_on c. Qed.

Lemma glyph_not_digit (c : ascii) :
  is_digit c = true -> Ascii.eqb (lower_char glyph_head) (lower_char c) = false.
Proof. by_cases_on c. Qed.

Lemma between_not_head (c : ascii) :
  is_digit c || Ascii.eqb glyph_head c = true ->
  Ascii.eqb (lower_char "b") (lower_char c) = false.
Proof. by_cases_on c. Qed.

Lemma head_not_space (c : ascii) :
  is_digit c || Ascii.eqb glyph_head c = true -> is_space c = false.
Proof. by_cases_on c. Qed.

Lemma space_not_number (c : ascii) : is_space c = true -> number_char c = false.
Proof. by_cases_on c. Qed.

Lemma sep_not_number (c : ascii) : sep_head c = true -> number_char c = false.
Proof. by_cases_on c. Qed.

Lemma sep_not_space (c : ascii) : sep_head c = true -> is_space c = false.
Proof. by_cases_on c. Qed.

Lemma digit_is_number_char (c : ascii) : is_digit c = true -> digit_or_comma c = true.
Proof. unfold digit_or_comma. intros ->. apply orb_true_r. Qed.

End CharFacts.

Section PhraseFacts.
Context {R : Type}.
Implicit Types (k : string -> groups -> option R) (g : groups) (x : R).

Lemma drop_while_nested (p q : ascii -> bool) (s : string) :
  (forall c, p c = true -> q c = true) ->
  drop_while q (drop_while p s) = drop_while q s.
Proof.
  intros Hpq. induction s as [|c s IH]; [reflexivity|].
  cbn [drop_while]. destruct (p c) eqn:E.
  - rewrite IH. now rewrite (Hpq c E).
  - reflexivity.
Qed.

Lemma stops_weaken (p q : ascii -> bool) (s : string) :
  (forall c, p c = true -> q c = true) -> stops q s = true -> stops p s = true.
Proof.
  intros Hpq. destruct s as [|c s]; [trivial|]. cbn [stops].
  rewrite !negb_true_iff. intros Hq.
  destruct (p c) eqn:E; [|reflexivity]. now rewrite (Hpq c E) in Hq.
Qed.

Lemma number_char_digit (c : ascii) : is_digit c = true -> number_char c = true.
Proof. unfold number_char, digit_or_comma. intros ->. now rewrite orb_true_r. Qed.

Lemma number_char_body (c : ascii) : digit_or_comma c = true -> number_char c = true.
Proof. unfold number_char. now intros ->. Qed.

(** [number_re] reads a well-formed numeral whole *)
Lemma match_number ic (n : numeral) (rest : string) k g x :
  wf_numeral n = true -> stops number_char rest = true ->
  k rest g = Some x ->
  rmatch ic number_re k (numeral_text n ++ rest) g = Some x.
Proof.
  destruct n as [ip fp]. unfold wf_numeral, numeral_text, frac_text.
  cbn [int_part frac_part]. intros Hwf Hrest Hk.
  destruct ip as [|d body]; [discriminate|].
  apply andb_true_iff in Hwf as [Hint Hfrac].
  apply andb_true_iff in Hint as [Hd Hbody].
  unfold number_re. cbn [append]. rewrite rmatch_seq.
  apply match_plus_longest; [exact Hd|].
  rewrite rmatch_seq. apply match_star_longest.
  rewrite (drop_while_nested _ (in_class (CUnion (CChar ",") CDigit)))
    by (intros c Hc; cbn [in_class] in *; rewrite Hc; apply orb_true_r).
  rewrite append_assoc.
  destruct fp as [f|].
  - apply andb_true_iff in Hfrac as [Hne Hf]. apply negb_true_iff in Hne.
    rewrite drop_while_app; [|exact Hbody|reflexivity].
    apply match_opt_taken. rewrite rmatch_seq.
    apply (match_lit ic "." "." (f ++ rest)); [destruct ic; reflexivity|].
    apply match_plus; try assumption.
    apply (stops_weaken _ number_char); [apply number_char_digit | exact Hrest].
  - cbn [append].
    rewrite drop_while_app;
      [|exact Hbody|apply (stops_weaken _ number_char);
                    [apply number_char_body | exact Hrest]].
    apply match_opt_skipped; [|exact Hk].
    cbn [rmatch]. destruct rest as [|c rest]; [reflexivity|].
    cbn [stops] in Hrest. apply negb_true_iff in Hrest.
    unfold number_char in Hrest. apply orb_false_iff in Hrest as [_ Hdot].
    cbn [skip_literal]. destruct ic.
    + now rewrite dot_any_case, Hdot.
    + now rewrite Hdot.
Qed.

Lemma numeral_head (n : numeral) (rest : string) :
  wf_numeral n = true ->
  exists d s, numeral_text n ++ rest = String d s /\ is_digit d = true.
Proof.
  destruct n as [ip fp]. unfold wf_numeral, numeral_text. cbn [int_part frac_part].
  destruct ip as [|d body]; [discriminate|].
  intros H. apply andb_true_iff in H as [H _]. apply andb_true_iff in H as [Hd _].
  cbn [append]. eauto.
Qed.

Lemma head_ok_number (n : numeral) (rest : string) :
  wf_numeral n = true -> head_ok (numeral_text n ++ rest) = true.
Proof.
  intros H. destruct (numeral_head n rest H) as [d [s [-> Hd]]].
  cbn [head_ok]. now rewrite Hd.
Qed.

Lemma head_ok_glyph (b : bool) (n : numeral) (rest : string) :
  wf_numeral n = true -> head_ok (glyph_text b ++ numeral_text n ++ rest) = true.
Proof.
  intros H. destruct b; [reflexivity|]. cbn [glyph_text append].
  now apply head_ok_number.
Qed.

Lemma head_ok_stops_space (s : string) : head_ok s = true -> stops is_space s = true.
Proof.
  destruct s as [|c s]; [discriminate|]. cbn [head_ok stops].
  intros H. now rewrite (head_not_space c H).
Qed.

(** the optional "between" and its blanks *)
Lemma match_lead (l : option (string * string)) (rest : string) k g x :
  wf_lead l = true -> head_ok rest = true ->
  k rest g = Some x ->
  rmatch true (ROpt (RSeq (RLit "between") (RPlus CSpace))) k (lead_text l ++ rest) g
  = Some x.
Proof.
  intros Hl Hh Hk. destruct l as [[word blanks]|].
  - cbn [wf_lead lead_text] in *.
    apply andb_true_iff in Hl as [Hl Hb]. apply andb_true_iff in Hl as [Hw Hne].
    apply String.eqb_eq in Hw. apply negb_true_iff in Hne.
    rewrite append_assoc. apply match_opt_taken. rewrite rmatch_seq.
    apply match_lit; [now apply skip_literal_any_case|].
    apply match_plus; try assumption. now apply head_ok_stops_space.
  - cbn [lead_text append]. apply match_opt_skipped; [|exact Hk].
    destruct rest as [|c rest]; [discriminate|]. cbn [head_ok] in Hh.
    cbn [rmatch]. now rewrite skip_literal_mismatch by now apply between_not_head.
Qed.

(** the optional glyph before a number *)
Lemma match_glyph (b : bool) (n : numeral) (rest : string) k g x :
  wf_numeral n = true ->
  k (numeral_text n ++ rest) g = Some x ->
  rmatch true (ROpt (RLit rupee)) k (glyph_text b ++ numeral_text n ++ rest) g = Some x.
Proof.
  intros Hn Hk. destruct b; cbn [glyph_text].
  - apply match_opt_taken. apply match_lit; [apply skip_literal_same | exact Hk].
  - cbn [append]. apply match_opt_skipped; [|exact Hk].
    destruct (numeral_head n rest Hn) as [d [s [-> Hd]]].
    unfold rupee. cbn [utf8 fold_right rmatch].
    now rewrite skip_literal_mismatch by now apply glyph_not_digit.
Qed.

End PhraseFacts.

Section SeparatorFacts.
Context {R : Type}.
Implicit Types (k : string -> groups -> option R) (g : groups) (x : R).

Lemma separator_head (sep rest : string) :
  is_separator sep = true ->
  exists c s, sep ++ rest = String c s /\ sep_head c = true.
Proof.
  unfold is_separator. rewrite !orb_true_iff, !String.eqb_eq.
  destruct sep as [|c sep]; [intros [[H | H] | H]; discriminate|].
  intros H. exists c, (sep ++ rest). split; [reflexivity|].
  unfold sep_head. cbn [lower] in H.
  destruct H as [[H | H] | H]; injection H as Hc _; rewrite Hc; reflexivity.
Qed.

(** [to|-|and], in any case *)
Lemma match_separator (sep rest : string) k g x :
  is_separator sep = true ->
  k rest g = Some x ->
  rmatch true (RAlt (RLit "to") (RAlt (RLit "-") (RLit "and"))) k (sep ++ rest) g = Some x.
Proof.
  unfold is_separator. rewrite !orb_true_iff, !String.eqb_eq.
  intros [[H | H] | H] Hk.
  - apply match_alt_left. apply match_lit; [now apply skip_literal_any_case | exact Hk].
  - destruct sep as [|c sep]; [discriminate|].
    assert (Hc : lower_char c = "-"%char) by (cbn [lower] in H; now injection H).
    apply match_alt_right.
    { apply match_lit_fails, skip_literal_mismatch. now rewrite Hc. }
    apply match_alt_left. apply match_lit; [now apply skip_literal_any_case | exact Hk].
  - destruct sep as [|c sep]; [discriminate|].
    assert (Hc : lower_char c = "a"%char) by (cbn [lower] in H; now injection H).
    apply match_alt_right.
    { apply match_lit_fails, skip_literal_mismatch. now rewrite Hc. }
    apply match_alt_right.
    { apply match_lit_fails, skip_literal_mismatch. now rewrite Hc. }
    apply match_lit; [now apply skip_literal_any_case | exact Hk].
Qed.

End SeparatorFacts.

(** the match of [price_pattern] at the start of a phrase *)
Lemma match_phrase (p : price_phrase) (rest : string) :
  well_formed p = true -> stops number_char rest = true ->
  match_here true price_pattern (phrase_text p ++ rest)
  = Some {| whole := phrase_text p;
            captures := [(2, numeral_text (number2 p)); (1, numeral_text (number1 p))] |}.
Proof.
  destruct p as [l g1 n1 ws1 sep ws2 g2 n2].
  unfold well_formed, phrase_text.
  cbn [lead glyph1 number1 blanks1 separator blanks2 glyph2 number2].
  intros Hwf Hrest.
  repeat (apply andb_true_iff in Hwf as [Hwf ?]).
  unfold match_here.
  set (text := (lead_text l ++ _) ++ rest).
  set (k0 := fun (s' : string) (g : groups) =>
               Some {| whole := consumed text s'; captures := g |}).
  subst text. rewrite !append_assoc.
  unfold price_pattern. rewrite rmatch_seq.
  apply match_lead; [assumption | now apply head_ok_glyph |].
  rewrite rmatch_seq. apply match_glyph; [assumption|].
  rewrite rmatch_seq. apply match_group.
  { intros k' Hk'. apply match_number; try assumption.
    destruct ws1 as [|c ws1].
    - cbn [append]. destruct (separator_head sep (ws2 ++ glyph_text g2 ++ numeral_text n2 ++ rest))
        as [c [s [-> Hc]]]; [assumption|].
      cbn [stops]. now rewrite sep_not_number.
    - cbn [append stops]. cbn [all_chars] in *.
      match goal with H : is_space c && _ = true |- _ => apply andb_true_iff in H as [Hc _] end.
      now rewrite space_not_number. }
  rewrite rmatch_seq. apply match_star; [assumption | |].
  { destruct (separator_head sep (ws2 ++ glyph_text g2 ++ numeral_text n2 ++ rest))
      as [c [s [-> Hc]]]; [assumption|].
    cbn [stops in_class]. now rewrite sep_not_space. }
  rewrite rmatch_seq. apply match_separator; [assumption|].
  rewrite rmatch_seq. apply match_star; [assumption | |].
  { apply (head_ok_stops_space). now apply head_ok_glyph. }
  rewrite rmatch_seq. apply match_glyph; [assumption|].
  apply match_group.
  { intros k' Hk'. now apply match_number. }
  unfold k0. do 2 f_equal.
  rewrite <- !append_assoc. apply consumed_app.
Qed.

Section FloatFacts.

Lemma remove_commas_app (a b : string) :
  remove_commas (a ++ b) = remove_commas a ++ remove_commas b.
Proof.
  induction a as [|c a IH]; [reflexivity|].
  cbn [append remove_commas]. destruct (Ascii.eqb c ","); [exact IH|].
  cbn [append]. now rewrite IH.
Qed.

Lemma digit_not_comma (c : ascii) : is_digit c = true -> Ascii.eqb c "," = false.
Proof. destruct c as [[] [] [] [] [] [] [] []]; try discriminate; reflexivity. Qed.

Lemma remove_commas_digits (s : string) :
  all_chars is_digit s = true -> remove_commas s = s.
Proof.
  induction s as [|c s IH]; [reflexivity|].
  cbn [all_chars remove_commas]. intros H. apply andb_true_iff in H as [Hc Hs].
  rewrite (digit_not_comma c Hc). now rewrite IH.
Qed.

Lemma remove_commas_body (s : string) :
  all_chars digit_or_comma s = true -> all_chars is_digit (remove_commas s) = true.
Proof.
  induction s as [|c s IH]; [reflexivity|].
  cbn [all_chars remove_commas]. intros H. apply andb_true_iff in H as [Hc Hs].
  destruct (Ascii.eqb c ",") eqn:E; [now apply IH|].
  cbn [all_chars]. rewrite (IH Hs), andb_true_r.
  unfold digit_or_comma in Hc. apply orb_true_iff in Hc as [Hc | Hc]; [|exact Hc].
  apply Ascii.eqb_eq in Hc. subst c. discriminate E.
Qed.

Lemma take_while_all (p : ascii -> bool) (s : string) :
  all_chars p s = true -> take_while p s = s.
Proof.
  intros H. rewrite <- (append_empty_r s) at 1. now apply take_while_app.
Qed.

Lemma drop_while_all (p : ascii -> bool) (s : string) :
  all_chars p s = true -> drop_while p s = "".
Proof.
  intros H. rewrite <- (append_empty_r s) at 1. now apply drop_while_app.
Qed.

(** [float] of a stripped numeral is the value of the numeral *)
Lemma float_numeral (n : numeral) :
  wf_numeral n = true ->
  float (remove_commas (numeral_text n)) = Returns (numeral_value n).
Proof.
  destruct n as [ip fp]. unfold wf_numeral, numeral_text, numeral_value, frac_text.
  cbn [int_part frac_part]. intros H.
  apply andb_true_iff in H as [Hint Hfrac].
  destruct ip as [|d body]; [discriminate|].
  apply andb_true_iff in Hint as [Hd Hbody].
  rewrite remove_commas_app.
  assert (Hds : all_chars is_digit (remove_commas (String d body)) = true).
  { cbn [remove_commas]. rewrite (digit_not_comma d Hd). cbn [all_chars].
    now rewrite Hd, remove_commas_body. }
  assert (Hne : is_empty (remove_commas (String d body)) = false).
  { cbn [remove_commas]. now rewrite (digit_not_comma d Hd). }
  set (digits := remove_commas (String d body)) in *.
  unfold float. destruct fp as [f|].
  - apply andb_true_iff in Hfrac as [_ Hf].
    cbn [append remove_commas]. change (Ascii.eqb "." ",") with false. cbv iota.
    rewrite (remove_commas_digits f Hf).
    rewrite (take_while_app is_digit digits (String "." f) Hds eq_refl).
    rewrite (drop_while_app is_digit digits (String "." f) Hds eq_refl).
    rewrite Hf, Hne. reflexivity.
  - cbn [remove_commas]. rewrite append_empty_r.
    rewrite (take_while_all _ _ Hds), (drop_while_all _ _ Hds), Hne. reflexivity.
Qed.

End FloatFacts.

Lemma search_at_start (ic : bool) (r : regex) (s : string) (m : match_obj) :
  match_here ic r s = Some m -> search ic r s = Some m.
Proof. intros H. destruct s; cbn [search]; now rewrite H. Qed.

(** a well-formed phrase, followed by text that does not continue its second
    number, yields its two numbers in the order in which they are written *)
Lemma extract_price_range_in_text (p : price_phrase) (rest : string) :
  well_formed p = true -> stops number_char rest = true ->
  extract_price_range (phrase_text p ++ rest)
  = Returns (Some (numeral_value (number1 p)), Some (numeral_value (number2 p))).
Proof.
  intros Hwf Hrest. unfold extract_price_range.
  rewrite (search_at_start _ _ _ _ (match_phrase p rest Hwf Hrest)).
  cbn [captures group Nat.eqb].
  unfold well_formed in Hwf.
  repeat (apply andb_true_iff in Hwf as [Hwf ?]).
  now rewrite !float_numeral.
Qed.


(** C3.  The program misses what the claim says by a slip.  The pattern of
    line 31 spells the optional glyph as the three code points U+00E2 U+201A
    U+00B9 ([rupee]) where the comments of lines 29-30 mean the rupee sign
    U+20B9 ([rupee_sign]).  A phrase that carries the rupee sign before its
    second number yields no bounds, while the same phrase with the glyph as
    the pattern spells it, or with no glyph, yields 50000 and 100000. *)
Lemma rupee_sign_before_second_number :
  extract_price_range ("50,000 to " ++ rupee_sign ++ "1,00,000") = Returns (None, None)
  /\ extract_price_range ("50,000 to " ++ rupee ++ "1,00,000")
     = Returns (Some (50000 # 1)%Q, Some (100000 # 1)%Q)
  /\ extract_price_range "50,000 to 1,00,000"
     = Returns (Some (50000 # 1)%Q, Some (100000 # 1)%Q).
Proof. repeat split; vm_compute; reflexivity. Qed.


(** ** Normalised prices *)

Section RupeeFacts.

Lemma contains_dollar (s : string) :
  contains "$" s = negb (all_chars no_dollar s).
Proof.
  induction s as [|c s IH]; [reflexivity|].
  cbn [contains startswith all_chars]. rewrite IH. unfold no_dollar.
  destruct (Ascii.eqb "$" c); [reflexivity|].
  cbn. reflexivity.
Qed.

Lemma all_chars_app (p : ascii -> bool) (a b : string) :
  all_chars p (a ++ b) = all_chars p a && all_chars p b.
Proof.
  induction a as [|c a IH]; [reflexivity|].
  cbn [append all_chars]. now rewrite IH, andb_assoc.
Qed.

Lemma all_chars_weaken (p q : ascii -> bool) (s : string) :
  (forall c, p c = true -> q c = true) ->
  all_chars p s = true -> all_chars q s = true.
Proof.
  intros Hpq. induction s as [|c s IH]; [reflexivity|].
  cbn [all_chars]. rewrite !andb_true_iff. intros [Hc Hs].
  split; [now apply Hpq | now apply IH].
Qed.

Lemma digit_no_dollar (c : ascii) : is_digit c = true -> no_dollar c = true.
Proof.
  unfold is_digit, no_dollar. intros H.
  destruct (Ascii.eqb "$" c) eqn:E; [|reflexivity].
  apply Ascii.eqb_eq in E. subst c. discriminate H.
Qed.

Lemma uint_digits (d : Decimal.uint) :
  all_chars is_digit (NilEmpty.string_of_uint d) = true.
Proof. induction d; cbn [NilEmpty.string_of_uint all_chars]; auto. Qed.

Lemma decimal_digits_digits (n : Z) : all_chars is_digit (decimal_digits n) = true.
Proof.
  unfold decimal_digits, NilZero.string_of_uint.
  destruct (N.to_uint (Z.to_N n)) eqn:E; try (rewrite <- E; apply uint_digits).
  reflexivity.
Qed.

Lemma group_thousands_no_dollar (s : string) :
  all_chars no_dollar s = true -> all_chars no_dollar (group_thousands s) = true.
Proof.
  induction s as [|c s IH]; [reflexivity|].
  cbn [group_thousands all_chars]. rewrite !andb_true_iff. intros [Hc Hs].
  split; [exact Hc|].
  destruct (negb (is_empty s) && (String.length s mod 3 =? 0)%nat).
  - cbn [all_chars]. now rewrite IH.
  - now apply IH.
Qed.

Lemma format_amount_no_dollar (x : Q) : contains "$" (format_amount x) = false.
Proof.
  rewrite contains_dollar. apply negb_false_iff.
  unfold format_amount, two_digits. cbv zeta.
  assert (Hd : forall n, all_chars no_dollar (decimal_digits n) = true).
  { intros n. apply (all_chars_weaken is_digit);
      [apply digit_no_dollar | apply decimal_digits_digits]. }
  rewrite all_chars_app, group_thousands_no_dollar by apply Hd.
  cbn [append all_chars andb].
  rewrite all_chars_app, Hd.
  now destruct (_ <? 10)%Z.
Qed.

Lemma render_inr_no_dollar (text amount : string) :
  render_inr text = Returns amount -> contains "$" amount = false.
Proof.
  unfold render_inr. destruct (float text); [|discriminate].
  intros H. injection H as <-. apply format_amount_no_dollar.
Qed.

Variable render : string -> outcome string.
Hypothesis render_no_dollar :
  forall text amount, render text = Returns amount -> contains "$" amount = false.


Lemma with_glyph (price_str : string) :
  startswith rupee price_str = true ->
  ensure_rupee_format_with render (Some price_str) = convert render price_str.
Proof.
  intros H. unfold ensure_rupee_format_with. rewrite H.
  apply startswith_true in H. destruct H as [r ->].
  reflexivity.
Qed.

Lemma without_glyph (price_str : string) :
  is_empty price_str || String.eqb price_str "N/A" = false ->
  startswith rupee price_str = false ->
  ensure_rupee_format_with render (Some price_str) = convert render (rupee ++ price_str).
Proof.
  intros H1 H2. unfold ensure_rupee_format_with. rewrite H1, H2. reflexivity.
Qed.

Lemma convert_keeps_glyph (price_str : string) :
  startswith rupee price_str = true -> startswith rupee (convert render price_str) = true.
Proof.
  intros H. unfold convert.
  destruct (contains "$" price_str); [|exact H].
  destruct (search false numeric_pattern price_str); [|exact H].
  destruct (render _); [apply startswith_app | exact H].
Qed.

Lemma convert_idempotent (price_str : string) :
  convert render (convert render price_str) = convert render price_str.
Proof.
  destruct (contains "$" price_str) eqn:Ed.
  - destruct (search false numeric_pattern price_str) as [m|] eqn:Es.
    + destruct (render (remove_commas (whole m))) as [a|e] eqn:Er.
      * assert (Hc : convert render price_str = rupee ++ a).
        { unfold convert. now rewrite Ed, Es, Er. }
        assert (Hn : contains "$" (rupee ++ a) = false).
        { rewrite contains_dollar, all_chars_app.
          apply render_no_dollar in Er. rewrite contains_dollar in Er.
          apply negb_false_iff in Er. rewrite Er. reflexivity. }
        rewrite Hc. unfold convert. now rewrite Hn.
      * assert (Hc : convert render price_str = price_str).
        { unfold convert. now rewrite Ed, Es, Er. }
        now rewrite !Hc.
    + assert (Hc : convert render price_str = price_str).
      { unfold convert. now rewrite Ed, Es. }
      now rewrite !Hc.
  - assert (Hc : convert render price_str = price_str).
    { unfold convert. now rewrite Ed. }
    now rewrite !Hc.
Qed.

Lemma ensure_rupee_format_with_idempotent (price_str : option string) :
  ensure_rupee_format_with render (Some (ensure_rupee_format_with render price_str))
  = ensure_rupee_format_with render price_str.
Proof.
  destruct price_str as [p|]; [|reflexivity].
  destruct (is_empty p || String.eqb p "N/A") eqn:E1.
  - assert (Hq : ensure_rupee_format_with render (Some p) = "N/A").
    { unfold ensure_rupee_format_with. now rewrite E1. }
    rewrite Hq. reflexivity.
  - destruct (startswith rupee p) eqn:E2.
    + rewrite (with_glyph p E2).
      rewrite with_glyph by now apply convert_keeps_glyph.
      apply convert_idempotent.
    + rewrite (without_glyph p E1 E2).
      rewrite with_glyph by (apply convert_keeps_glyph, startswith_app).
      apply convert_idempotent.
Qed.

End RupeeFacts.

(** C8.  On a price string that already begins with the glyph,
    [ensure_rupee_format] applied twice gives the string that it gives when
    applied once. *)
Theorem ensure_rupee_format_idempotent (price_str : string) :
  startswith rupee price_str = true ->
  ensure_rupee_format (Some (ensure_rupee_format (Some price_str)))
  = ensure_rupee_format (Some price_str).
Proof.
  intros _. apply ensure_rupee_format_with_idempotent. exact render_inr_no_dollar.
Qed.

Lemma ensure_rupee_format_idempotent_witness :
  startswith rupee (rupee ++ "$12.50") = true
  /\ ensure_rupee_format (Some (rupee ++ "$12.50")) = rupee ++ "1,043.75"
  /\ ensure_rupee_format (Some (ensure_rupee_format (Some (rupee ++ "$12.50"))))
     = ensure_rupee_format (Some (rupee ++ "$12.50")).
Proof.
  split; [reflexivity|]. split; [reflexivity|].
  apply (ensure_rupee_format_idempotent (rupee ++ "$12.50")). reflexivity.
Defined.

(** ** Fetching *)

(** C9.  Whatever the query and the price bounds, when the outbound search
    call raises (or the lookup of the API key does), [fetch_shopping_results]
    writes one error notice that carries the text of the exception and
    returns the empty list; in every case it returns, so no exception leaves
    the function. *)
Theorem fetch_failure_contained
        (get_dict : params -> outcome (option (list listing)))
        (serpapi_key : outcome string)
        (query : string) (min_price max_price : option Q) (page : list notice) :
  (forall key e,
      serpapi_key = Returns key ->
      get_dict (request key query min_price max_price) = Raises e ->
      fetch_shopping_results get_dict serpapi_key query min_price max_price page
      = (Returns [], (page ++ [fetch_notice e])%list))
  /\ (forall e,
         serpapi_key = Raises e ->
         fetch_shopping_results get_dict serpapi_key query min_price max_price page
         = (Returns [], (page ++ [fetch_notice e])%list))
  /\ (exists shopping_results page',
         fetch_shopping_results get_dict serpapi_key query min_price max_price page
         = (Returns shopping_results, page')).
Proof.
  unfold fetch_shopping_results, try_except, bind, lift, ret, st_error, fetch_notice.
  repeat split.
  - intros key e -> ->. reflexivity.
  - intros e ->. reflexivity.
  - destruct serpapi_key as [key|e]; [|eauto].
    destruct (get_dict (request key query min_price max_price)); eauto.
Qed.

(** ** The end-to-end scenario *)

(** C1, as stated, fails: the preference text itself names "MacBook Air", so
    the query built is "MacBook M3 Pro Air 16-inch", which does not contain
    "MacBook M3 Pro 16-inch". *)
Lemma scenario_query_lacks_phrase :
  build_search_query "MacBook M3" (scenario_text rupee_sign) = "MacBook M3 Pro Air 16-inch"
  /\ contains "MacBook M3 Pro 16-inch"
              (build_search_query "MacBook M3" (scenario_text rupee_sign)) = false.
Proof. split; reflexivity. Qed.

(** C1, amended.  For the scenario's preference text and the base product
    "MacBook M3": the query built is "MacBook M3 Pro Air 16-inch"; the
    listing titled "MacBook Pro 16-inch 512GB Silver" from source "Amazon"
    gets the match score 12; and, the budget phrase carrying the glyph as the
    pattern of the program spells it or no glyph, the bounds extracted are
    150000 and 200000. *)
Theorem scenario_end_to_end :
  (forall glyph, In glyph [rupee; rupee_sign; ""] ->
     build_search_query "MacBook M3" (scenario_text glyph) = "MacBook M3 Pro Air 16-inch"
     /\ map match_score (filter_results [scenario_listing] (scenario_text glyph))
        = [Some 12%Z])
  /\ (forall glyph, In glyph [rupee; ""] ->
        extract_price_range (scenario_text glyph)
        = Returns (Some (150000 # 1)%Q, Some (200000 # 1)%Q)).
Proof.
  split.
  - intros glyph [<- | [<- | [<- | []]]]; split; vm_compute; reflexivity.
  - intros glyph [<- | [<- | []]]; vm_compute; reflexivity.
Qed.

(** * Further properties *)

Section Soundness.

Lemma skip_literal_sound (ic : bool) (l s s' : string) :
  skip_literal ic l s = Some s' ->
  exists t, s = t ++ s' /\ skip_literal ic l t = Some "".
Proof.
  revert s. induction l as [|a l IH]; intros s H.
  - cbn in H. injection H as <-. exists "". split; reflexivity.
  - destruct s as [|b s]; [discriminate|]. cbn [skip_literal] in H.
    destruct (if ic then Ascii.eqb (lower_char a) (lower_char b) else Ascii.eqb a b) eqn:E;
      [|discriminate].
    destruct (IH s H) as (t & -> & Ht).
    exists (String b t). split; [reflexivity|].
    cbn [skip_literal]. now rewrite E.
Qed.

Lemma star_class_sound {R : Type} (cl : charclass) (k : string -> option R)
      (s : string) (x : R) :
  star_class cl k s = Some x ->
  exists t s', s = t ++ s' /\ all_chars (in_class cl) t = true /\ k s' = Some x.
Proof.
  induction s as [|c s IH]; cbn [star_class]; intros H.
  - exists "", "". auto.
  - destruct (in_class cl c) eqn:E.
    + destruct (star_class cl k s) as [y|] eqn:Es.
      * injection H as ->. destruct (IH eq_refl) as (t & s' & -> & Ht & Hk).
        exists (String c t), s'. cbn [all_chars append]. now rewrite E, Ht.
      * exists "", (String c s). auto.
    + exists "", (String c s). auto.
Qed.

(** every result of the matcher comes from a match of a prefix of the text,
    handed with the captured groups to the continuation *)
Lemma rmatch_sound {R : Type} (ic : bool) (r : regex) :
  forall (k : string -> groups -> option R) (s : string) (g : groups) (x : R),
    rmatch ic r k s g = Some x ->
    exists t s' new,
      s = t ++ s' /\ derives ic r t new /\ k s' (new ++ g)%list = Some x.
Proof.
  induction r as [l | cl | cl | r1 IH1 r2 IH2 | r1 IH1 r2 IH2 | r1 IH1 | n r1 IH1];
    intros k s g x H; cbn [rmatch] in H.
  - destruct (skip_literal ic l s) as [s'|] eqn:E; [|discriminate].
    destruct (skip_literal_sound _ _ _ _ E) as (t & -> & Ht).
    exists t, s', []. split; [reflexivity|]. split; [now constructor | exact H].
  - destruct (star_class_sound _ _ _ _ H) as (t & s' & -> & Ht & Hk).
    exists t, s', []. split; [reflexivity|]. split; [now constructor | exact Hk].
  - destruct s as [|c s]; [discriminate|].
    destruct (in_class cl c) eqn:E; [|discriminate].
    destruct (star_class_sound _ _ _ _ H) as (t & s' & -> & Ht & Hk).
    exists (String c t), s', []. split; [reflexivity|].
    split; [|exact Hk]. constructor. cbn [all_chars]. now rewrite E, Ht.
  - destruct (IH1 _ _ _ _ H) as (t1 & s1 & g1 & -> & D1 & H1).
    destruct (IH2 _ _ _ _ H1) as (t2 & s2 & g2 & -> & D2 & H2).
    exists (t1 ++ t2), s2, (g2 ++ g1)%list.
    split; [now rewrite append_assoc|]. split; [now constructor|].
    now rewrite <- app_assoc.
  - destruct (rmatch ic r1 k s g) as [y|] eqn:E.
    + injection H as ->. destruct (IH1 _ _ _ _ E) as (t & s' & new & -> & D & Hk).
      exists t, s', new. split; [reflexivity|]. split; [now apply DAltLeft | exact Hk].
    + destruct (IH2 _ _ _ _ H) as (t & s' & new & -> & D & Hk).
      exists t, s', new. split; [reflexivity|]. split; [now apply DAltRight | exact Hk].
  - destruct (rmatch ic r1 k s g) as [y|] eqn:E.
    + injection H as ->. destruct (IH1 _ _ _ _ E) as (t & s' & new & -> & D & Hk).
      exists t, s', new. split; [reflexivity|]. split; [now apply DOptTaken | exact Hk].
    + exists "", s, []. split; [reflexivity|]. split; [apply DOptSkipped | exact H].
  - destruct (IH1 _ _ _ _ H) as (t & s' & new & -> & D & Hk).
    rewrite consumed_app in Hk.
    exists t, s', ((n, t) :: new). split; [reflexivity|]. split; [now constructor | exact Hk].
Qed.

Lemma match_here_sound (ic : bool) (r : regex) (s : string) (m : match_obj) :
  match_here ic r s = Some m ->
  exists s', s = whole m ++ s' /\ derives ic r (whole m) (captures m).
Proof.
  unfold match_here. intros H.
  destruct (rmatch_sound _ _ _ _ _ _ H) as (t & s' & new & -> & D & Hk).
  rewrite consumed_app, app_nil_r in Hk. injection Hk as <-.
  exists s'. split; [reflexivity | exact D].
Qed.

Lemma search_sound (ic : bool) (r : regex) (s : string) (m : match_obj) :
  search ic r s = Some m ->
  exists before after,
    s = before ++ whole m ++ after /\ derives ic r (whole m) (captures m).
Proof.
  induction s as [|c s IH]; cbn [search]; intros H.
  - destruct (match_here ic r "") as [m'|] eqn:E; [|discriminate].
    injection H as ->. destruct (match_here_sound _ _ _ _ E) as (s' & Hs & D).
    exists "", s'. split; [exact Hs | exact D].
  - destruct (match_here ic r (String c s)) as [m'|] eqn:E.
    + injection H as ->. destruct (match_here_sound _ _ _ _ E) as (s' & Hs & D).
      exists "", s'. split; [exact Hs | exact D].
    + destruct (IH H) as (before & after & -> & D).
      exists (String c before), after. split; [reflexivity | exact D].
Qed.

End Soundness.

Section PatternFacts.

Lemma derives_no_groups (ic : bool) (r : regex) (t : string) (g : groups) :
  no_groups r = true -> derives ic r t g -> g = [].
Proof.
  intros Hr D. induction D; cbn [no_groups] in Hr; try reflexivity; auto.
  - apply andb_true_iff in Hr as [H1 H2].
    now rewrite (IHD1 H1), (IHD2 H2).
  - apply andb_true_iff in Hr as [H1 H2]. auto.
  - apply andb_true_iff in Hr as [H1 H2]. auto.
  - discriminate.
Qed.

Lemma derives_seq (ic : bool) (r1 r2 : regex) (t : string) (g : groups) :
  derives ic (RSeq r1 r2) t g ->
  exists t1 t2 g1 g2,
    t = t1 ++ t2 /\ g = (g2 ++ g1)%list /\ derives ic r1 t1 g1 /\ derives ic r2 t2 g2.
Proof. intros D. inversion D; subst. eauto 10. Qed.

Lemma derives_group (ic : bool) (n : nat) (r : regex) (t : string) (g : groups) :
  derives ic (RGroup n r) t g -> exists g', g = (n, t) :: g' /\ derives ic r t g'.
Proof. intros D. inversion D; subst. eauto. Qed.

Lemma derives_dot (ic : bool) (t : string) (g : groups) :
  derives ic (RLit ".") t g -> t = ".".
Proof.
  intros D. inversion D as [l t' H| | | | | | | |]; subst.
  destruct t as [|b t]; [discriminate|]. cbn [skip_literal] in H.
  assert (E : Ascii.eqb "." b = true).
  { destruct ic; [rewrite <- dot_any_case|];
      destruct (Ascii.eqb _ _); [reflexivity | discriminate | reflexivity | discriminate]. }
  apply Ascii.eqb_eq in E. subst b.
  destruct ic; cbn in H; now injection H as ->.
Qed.

(** what [number_re] matches is a well-formed numeral *)
Lemma derives_number (ic : bool) (t : string) (g : groups) :
  derives ic number_re t g ->
  g = [] /\ exists n, wf_numeral n = true /\ t = numeral_text n.
Proof.
  intros D. split; [now apply (derives_no_groups ic number_re t g)|].
  unfold number_re in D.
  apply derives_seq in D as (t1 & r1 & ? & ? & -> & _ & D1 & D).
  apply derives_seq in D as (t2 & t3 & ? & ? & -> & _ & D2 & D3).
  inversion D1 as [| |cl d t1' H1| | | | | |]; subst.
  inversion D2 as [|cl t2' H2| | | | | | |]; subst.
  cbn [all_chars in_class] in H1. apply andb_true_iff in H1 as [Hd H1].
  assert (Hbody : all_chars digit_or_comma (t1' ++ t2) = true).
  { rewrite all_chars_app, (all_chars_weaken is_digit digit_or_comma t1'
                              digit_is_number_char H1).
    exact H2. }
  inversion D3 as [| | | | | |r t3' g3 D4|r|]; subst.
  - apply derives_seq in D4 as (tl & t4 & ? & ? & -> & _ & Dl & D5).
    apply derives_dot in Dl. subst tl.
    inversion D5 as [| |cl e t4' H5| | | | | |]; subst.
    exists (Numeral (String d (t1' ++ t2)) (Some (String e t4'))).
    split.
    + unfold wf_numeral. cbn [int_part frac_part is_empty negb].
      change (all_chars is_digit (String e t4') = true) in H5.
      now rewrite Hd, Hbody, H5.
    + unfold numeral_text, frac_text. cbn [int_part frac_part append].
      now rewrite !append_assoc.
  - exists (Numeral (String d (t1' ++ t2)) None).
    split.
    + unfold wf_numeral. cbn [int_part frac_part]. now rewrite Hd, Hbody.
    + unfold numeral_text, frac_text. cbn [int_part frac_part append].
      now rewrite !append_assoc.
Qed.

(** what [price_pattern] matches holds two well-formed numerals, captured as
    groups 1 and 2 *)
Lemma derives_price_pattern (t : string) (g : groups) :
  derives true price_pattern t g ->
  exists n1 n2 a b,
    wf_numeral n1 = true /\ wf_numeral n2 = true
    /\ t = a ++ numeral_text n1 ++ b ++ numeral_text n2
    /\ g = [(2, numeral_text n2); (1, numeral_text n1)].
Proof.
  intros D. unfold price_pattern in D.
  apply derives_seq in D as (t1 & ? & g1 & ? & -> & -> & D1 & D).
  apply derives_seq in D as (t2 & ? & g2 & ? & -> & -> & D2 & D).
  apply derives_seq in D as (t3 & ? & g3 & ? & -> & -> & D3 & D).
  apply derives_seq in D as (t4 & ? & g4 & ? & -> & -> & D4 & D).
  apply derives_seq in D as (t5 & ? & g5 & ? & -> & -> & D5 & D).
  apply derives_seq in D as (t6 & ? & g6 & ? & -> & -> & D6 & D).
  apply derives_seq in D as (t7 & t8 & g7 & g8 & -> & -> & D7 & D8).
  apply derives_no_groups in D1; [|reflexivity].
  apply derives_no_groups in D2; [|reflexivity].
  apply derives_no_groups in D4; [|reflexivity].
  apply derives_no_groups in D5; [|reflexivity].
  apply derives_no_groups in D6; [|reflexivity].
  apply derives_no_groups in D7; [|reflexivity].
  subst g1 g2 g4 g5 g6 g7.
  apply derives_group in D3 as (g3' & -> & D3).
  apply derives_group in D8 as (g8' & -> & D8).
  apply derives_number in D3 as (-> & n1 & W1 & ->).
  apply derives_number in D8 as (-> & n2 & W2 & ->).
  exists n1, n2, (t1 ++ t2), (t4 ++ t5 ++ t6 ++ t7).
  repeat split; [exact W1 | exact W2 |].
  now rewrite !append_assoc.
Qed.

Lemma digits_value_nonneg (s : string) (acc : Z) :
  (0 <= acc)%Z -> (0 <= digits_value acc s)%Z.
Proof.
  revert acc. induction s as [|c s IH]; intros acc H; cbn [digits_value]; [exact H|].
  apply IH. unfold digit_value. lia.
Qed.

Lemma numeral_value_nonneg (n : numeral) : (0 <= numeral_value n)%Q.
Proof.
  unfold numeral_value, decimal. rewrite Qred_correct.
  unfold Qle. cbn [Qnum Qden]. rewrite Z.mul_0_l, Z.mul_1_r.
  now apply digits_value_nonneg.
Qed.

(** the two outcomes of [extract_price_range] *)
Lemma extract_price_range_cases (user_preferences : string) :
  extract_price_range user_preferences = Returns (None, None)
  \/ exists n1 n2 before between after,
       wf_numeral n1 = true /\ wf_numeral n2 = true
       /\ user_preferences
          = before ++ numeral_text n1 ++ between ++ numeral_text n2 ++ after
       /\ extract_price_range user_preferences
          = Returns (Some (numeral_value n1), Some (numeral_value n2)).
Proof.
  unfold extract_price_range.
  destruct (search true price_pattern user_preferences) as [m|] eqn:E; [|now left].
  right. apply search_sound in E as (before & after & -> & D).
  apply derives_price_pattern in D as (n1 & n2 & a & b & W1 & W2 & Hw & Hg).
  exists n1, n2, (before ++ a), b, after.
  split; [exact W1|]. split; [exact W2|]. split.
  - rewrite Hw, !append_assoc. reflexivity.
  - rewrite Hg. cbn [group Nat.eqb]. now rewrite !float_numeral.
Qed.

End PatternFacts.


(** X1.  [extract_price_range] raises on no input: whatever the pattern
    captures, [float] accepts it once the commas are stripped. *)
Theorem extract_price_range_never_raises (user_preferences : string) :
  exists bounds, extract_price_range user_preferences = Returns bounds.
Proof.
  destruct (extract_price_range_cases user_preferences)
    as [H | (n1 & n2 & _ & _ & _ & _ & _ & _ & H)]; rewrite H; eauto.
Qed.

(** X2.  Bounds that are returned are the values of two numerals that stand
    in the text, the minimum one before the maximum one, and neither is
    negative: a minus sign is never part of a number. *)
Theorem extract_price_range_bounds_from_text (user_preferences : string) (lo hi : Q) :
  extract_price_range user_preferences = Returns (Some lo, Some hi) ->
  (exists n1 n2 before between after,
      wf_numeral n1 = true /\ wf_numeral n2 = true
      /\ user_preferences
         = before ++ numeral_text n1 ++ between ++ numeral_text n2 ++ after
      /\ lo = numeral_value n1 /\ hi = numeral_value n2)
  /\ (0 <= lo)%Q /\ (0 <= hi)%Q.
Proof.
  intros H.
  destruct (extract_price_range_cases user_preferences)
    as [H' | (n1 & n2 & before & between & after & W1 & W2 & Ht & H')];
    rewrite H' in H; [discriminate|].
  injection H as <- <-.
  split; [exists n1, n2, before, between, after; auto|].
  split; apply numeral_value_nonneg.
Qed.

Lemma extract_price_range_bounds_from_text_witness :
  extract_price_range "from -5 to -10, or 5-10" = Returns (Some (5 # 1)%Q, Some (10 # 1)%Q)
  /\ (exists n1 n2 before between after,
         wf_numeral n1 = true /\ wf_numeral n2 = true
         /\ "from -5 to -10, or 5-10"
            = before ++ numeral_text n1 ++ between ++ numeral_text n2 ++ after
         /\ (5 # 1)%Q = numeral_value n1 /\ (10 # 1)%Q = numeral_value n2)
  /\ (0 <= 5 # 1)%Q /\ (0 <= 10 # 1)%Q.
Proof.
  split; [reflexivity|].
  apply (extract_price_range_bounds_from_text "from -5 to -10, or 5-10"). reflexivity.
Defined.

(** X3.  An ASCII text without a digit yields no bounds, whatever keywords
    it holds. *)
Theorem extract_price_range_no_digit (user_preferences : string) :
  all_chars is_ascii user_preferences = true ->
  all_chars not_digit user_preferences = true ->
  extract_price_range user_preferences = Returns (None, None).
Proof.
  intros _ H.
  destruct (extract_price_range_cases user_preferences)
    as [H' | (n1 & n2 & before & between & after & W1 & _ & Ht & _)]; [exact H'|].
  exfalso. subst user_preferences.
  rewrite all_chars_app in H. apply andb_true_iff in H as [_ H].
  destruct (numeral_head n1 (between ++ numeral_text n2 ++ after) W1) as (d & s & E & Hd).
  rewrite E in H. cbn [all_chars] in H. unfold not_digit in H. now rewrite Hd in H.
Qed.

Lemma extract_price_range_no_digit_witness :
  extract_price_range "between cheap and cheerful" = Returns (None, None).
Proof.
  apply (extract_price_range_no_digit "between cheap and cheerful"); reflexivity.
Defined.

Section NumericFacts.

Lemma search_skip (ic : bool) (r : regex) (c : ascii) (s : string) :
  match_here ic r (String c s) = None -> search ic r (String c s) = search ic r s.
Proof. intros H. cbn [search]. now rewrite H. Qed.

Lemma plain_char_class (c : ascii) :
  in_class (CUnion CDigit (CChar ",")) c = negb (plain_char c).
Proof.
  unfold plain_char. cbn [in_class]. rewrite negb_involutive.
  now rewrite (Ascii.eqb_sym "," c).
Qed.

Lemma numeric_needs_head (c : ascii) (s : string) :
  plain_char c = true -> match_here false numeric_pattern (String c s) = None.
Proof.
  intros H. unfold match_here, numeric_pattern. cbn [rmatch].
  now rewrite plain_char_class, H.
Qed.

Lemma numeric_not_empty : match_here false numeric_pattern "" = None.
Proof. reflexivity. Qed.

(** the search passes over text that holds neither a digit nor a comma *)
Lemma search_numeric_skip (before s : string) :
  all_chars plain_char before = true ->
  search false numeric_pattern (before ++ s) = search false numeric_pattern s.
Proof.
  induction before as [|c w IH]; [reflexivity|].
  cbn [all_chars append]. intros H. apply andb_true_iff in H as [Hc Hw].
  rewrite search_skip by now apply numeric_needs_head. now apply IH.
Qed.

Lemma search_numeric_none (s : string) :
  all_chars plain_char s = true -> search false numeric_pattern s = None.
Proof.
  intros H. rewrite <- (append_empty_r s), (search_numeric_skip s "" H). reflexivity.
Qed.

Lemma number_char_not_class (s : string) :
  stops number_char s = true ->
  stops (in_class (CUnion CDigit (CChar ","))) s = true
  /\ stops (in_class CDigit) s = true
  /\ skip_literal false "." s = None.
Proof.
  destruct s as [|c s]; [auto|]. cbn [stops skip_literal in_class].
  unfold number_char, digit_or_comma. intros H. apply negb_true_iff in H.
  apply orb_false_iff in H as [H Hdot]. apply orb_false_iff in H as [Hcomma Hd].
  rewrite Hd, Hcomma, Hdot. auto.
Qed.

(** the pattern of the two price readers takes a numeral whole *)
Lemma match_numeral (n : numeral) (after : string) :
  wf_numeral n = true -> stops number_char after = true ->
  match_here false numeric_pattern (numeral_text n ++ after)
  = Some {| whole := numeral_text n; captures := [] |}.
Proof.
  destruct n as [ip fp]. unfold wf_numeral, numeral_text, frac_text.
  cbn [int_part frac_part]. intros H Hafter.
  apply andb_true_iff in H as [Hint Hfrac].
  assert (Hip : is_empty ip = false /\ all_chars (in_class (CUnion CDigit (CChar ","))) ip = true).
  { destruct ip as [|d body]; [discriminate|]. split; [reflexivity|].
    apply andb_true_iff in Hint as [Hd Hbody]. cbn [all_chars in_class].
    rewrite Hd. cbn [orb andb].
    apply (all_chars_weaken digit_or_comma); [|exact Hbody].
    intros c. unfold digit_or_comma. cbn [in_class]. now rewrite orb_comm. }
  destruct Hip as [Hne Hall].
  destruct (number_char_not_class after Hafter) as (Ha1 & Ha2 & Ha3).
  unfold match_here, numeric_pattern. rewrite append_assoc, !rmatch_seq.
  destruct fp as [f|].
  - apply andb_true_iff in Hfrac as [_ Hf].
    apply match_plus; [exact Hne | exact Hall | reflexivity |].
    rewrite rmatch_seq. apply match_opt_taken.
    apply (match_lit false "." "." (f ++ after)); [reflexivity|].
    apply match_star; [exact Hf | exact Ha2 |].
    rewrite <- !append_assoc, consumed_app. reflexivity.
  - cbn [append].
    apply match_plus; [exact Hne | exact Hall | exact Ha1 |].
    rewrite rmatch_seq. apply match_opt_skipped; [now apply match_lit_fails|].
    apply (match_star false CDigit "" after); [reflexivity | exact Ha2 |].
    rewrite <- (append_empty_r ip) at 1. rewrite append_assoc, consumed_app.
    now rewrite append_empty_r.
Qed.

(** [re.search] of the numeric pattern finds the first numeral of the text *)
Lemma search_numeral (before : string) (n : numeral) (after : string) :
  all_chars plain_char before = true ->
  wf_numeral n = true -> stops number_char after = true ->
  search false numeric_pattern (before ++ numeral_text n ++ after)
  = Some {| whole := numeral_text n; captures := [] |}.
Proof.
  intros Hb Hn Ha. rewrite (search_numeric_skip _ _ Hb).
  apply search_at_start. now apply match_numeral.
Qed.

End NumericFacts.

Section PriceFacts.

Lemma contains_app_r (m s u : string) :
  contains m u = true -> contains m (s ++ u) = true.
Proof.
  intros H. induction s as [|c s IH]; [exact H|].
  cbn [append contains]. rewrite IH. apply orb_true_r.
Qed.

Lemma rupee_plain : all_chars plain_char rupee = true.
Proof. reflexivity. Qed.

Lemma dollar_not_unavailable (p : string) :
  contains "$" p = true -> is_empty p || String.eqb p "N/A" = false.
Proof.
  intros H. destruct p as [|c p]; [discriminate|]. cbn [is_empty orb].
  destruct (String.eqb (String c p) "N/A") eqn:E; [|reflexivity].
  apply String.eqb_eq in E. rewrite E in H. discriminate.
Qed.

(** the string that the second half of [ensure_rupee_format] works on *)
Lemma ensure_rupee_format_prefixed (p : string) :
  is_empty p || String.eqb p "N/A" = false ->
  ensure_rupee_format (Some p)
  = convert render_inr (if startswith rupee p then p else rupee ++ p).
Proof.
  intros H. unfold ensure_rupee_format.
  destruct (startswith rupee p) eqn:E.
  - now apply with_glyph.
  - now apply without_glyph.
Qed.

Lemma prefixed_has_glyph (p : string) :
  startswith rupee (if startswith rupee p then p else rupee ++ p) = true.
Proof. destruct (startswith rupee p) eqn:E; [exact E | apply startswith_app]. Qed.

Lemma convert_numeral (before : string) (n : numeral) (after : string) :
  all_chars plain_char before = true -> contains "$" before = true ->
  wf_numeral n = true -> stops number_char after = true ->
  convert render_inr (before ++ numeral_text n ++ after)
  = rupee ++ format_amount (Qmult (numeral_value n) usd_to_inr).
Proof.
  intros Hb Hd Hn Ha. unfold convert.
  rewrite (contains_app_l _ _ _ Hd), (search_numeral _ _ _ Hb Hn Ha).
  cbn [whole]. unfold render_inr. now rewrite float_numeral.
Qed.

Lemma ensure_rupee_format_dollars (before : string) (n : numeral) (after : string) :
  all_chars plain_char before = true -> contains "$" before = true ->
  wf_numeral n = true -> stops number_char after = true ->
  ensure_rupee_format (Some (before ++ numeral_text n ++ after))
  = rupee ++ format_amount (Qmult (numeral_value n) usd_to_inr).
Proof.
  intros Hb Hd Hn Ha.
  rewrite ensure_rupee_format_prefixed
    by (apply dollar_not_unavailable, contains_app_l, Hd).
  destruct (startswith rupee (before ++ numeral_text n ++ after)).
  - now apply convert_numeral.
  - rewrite <- append_assoc. apply convert_numeral; [| |exact Hn|exact Ha].
    + rewrite all_chars_app, Hb. reflexivity.
    + now apply contains_app_r.
Qed.

End PriceFacts.

(** X4.  [ensure_rupee_format] answers "N/A" on exactly the inputs that
    [price_available] rejects (None, the empty string, "N/A"); every other
    result begins with the glyph. *)
Theorem ensure_rupee_format_unavailable (price_str : option string) :
  (ensure_rupee_format price_str = "N/A" <-> price_available price_str = false)
  /\ (price_available price_str = true ->
      startswith rupee (ensure_rupee_format price_str) = true).
Proof.
  destruct price_str as [p|]; [|split; [split; reflexivity | discriminate]].
  unfold price_available.
  destruct (is_empty p || String.eqb p "N/A") eqn:E.
  - assert (H : ensure_rupee_format (Some p) = "N/A").
    { unfold ensure_rupee_format, ensure_rupee_format_with. now rewrite E. }
    rewrite H. split; [split; reflexivity | discriminate].
  - rewrite (ensure_rupee_format_prefixed p E).
    pose proof (convert_keeps_glyph render_inr _ (prefixed_has_glyph p)) as Hg.
    cbn [negb]. split; [|intros _; exact Hg].
    split; [|discriminate]. intros H. rewrite H in Hg. discriminate.
Qed.

(** X5.  [ensure_rupee_format] is idempotent on every input: on None, on the
    empty string and on "N/A" as well as on prices with or without the
    glyph, with or without a dollar sign. *)
Theorem ensure_rupee_format_idempotent_everywhere (price_str : option string) :
  ensure_rupee_format (Some (ensure_rupee_format price_str))
  = ensure_rupee_format price_str.
Proof.
  apply ensure_rupee_format_with_idempotent. exact render_inr_no_dollar.
Qed.

(** X6.  An ASCII price with a dollar sign before its first number N, no
    digit or comma standing before N, and N a whole number of at most twelve
    digits (commas allowed), becomes the glyph followed by N times 83.5,
    written with two decimals and grouped thousands; the rest of the text is
    dropped.  For such N the product is exact in binary floating point. *)
Theorem ensure_rupee_format_converts_dollars
        (before : string) (n : numeral) (after : string) :
  all_chars is_ascii before = true -> all_chars plain_char before = true ->
  contains "$" before = true ->
  wf_numeral n = true -> whole_number n 12 = true ->
  all_chars is_ascii after = true -> stops number_char after = true ->
  ensure_rupee_format (Some (before ++ numeral_text n ++ after))
  = rupee ++ format_amount (Qmult (numeral_value n) usd_to_inr).
Proof. intros _ Hb Hd Hn _ _ Ha. now apply ensure_rupee_format_dollars. Qed.

Lemma ensure_rupee_format_converts_dollars_witness :
  ensure_rupee_format (Some ("US $" ++ numeral_text (Numeral "1,299" None) ++ " approx"))
  = rupee ++ format_amount (Qmult (numeral_value (Numeral "1,299" None)) usd_to_inr)
  /\ format_amount (Qmult (numeral_value (Numeral "1,299" None)) usd_to_inr)
     = "108,466.50".
Proof.
  split; [|reflexivity].
  apply (ensure_rupee_format_converts_dollars "US $" (Numeral "1,299" None) " approx");
    reflexivity.
Defined.

Section PaymentFacts.

Lemma remove_commas_no_digit (s : string) :
  all_chars (in_class (CUnion CDigit (CChar ","))) s = true ->
  all_chars not_digit s = true -> remove_commas s = "".
Proof.
  induction s as [|c s IH]; [reflexivity|].
  cbn [all_chars in_class remove_commas]. intros H1 H2.
  apply andb_true_iff in H1 as [Hc H1]. apply andb_true_iff in H2 as [Hn H2].
  unfold not_digit in Hn. apply negb_true_iff in Hn. rewrite Hn in Hc.
  cbn [orb] in Hc. rewrite Ascii.eqb_sym in Hc. rewrite Hc. now apply IH.
Qed.

Lemma digits_no_digit (s : string) :
  all_chars (in_class CDigit) s = true -> all_chars not_digit s = true -> s = "".
Proof.
  destruct s as [|c s]; [reflexivity|]. cbn [all_chars in_class]. intros H1 H2.
  apply andb_true_iff in H1 as [Hc _]. apply andb_true_iff in H2 as [Hn _].
  unfold not_digit in Hn. now rewrite Hc in Hn.
Qed.

(** a match of the numeric pattern that holds no digit is refused by [float] *)
Lemma numeric_match_no_digit (t : string) (g : groups) :
  derives false numeric_pattern t g -> all_chars not_digit t = true ->
  float (remove_commas t) = Raises float_error.
Proof.
  intros D H. unfold numeric_pattern in D.
  apply derives_seq in D as (t1 & ? & ? & ? & -> & _ & D1 & D).
  apply derives_seq in D as (t2 & t3 & ? & ? & -> & _ & D2 & D3).
  rewrite !all_chars_app in H.
  apply andb_true_iff in H as [H1 H]. apply andb_true_iff in H as [H2 H3].
  inversion D1 as [| |cl c t1' Hc1| | | | | |]; subst.
  inversion D3 as [|cl t3' Hc3| | | | | | |]; subst.
  rewrite (digits_no_digit t3 Hc3 H3), append_empty_r, remove_commas_app.
  rewrite (remove_commas_no_digit _ Hc1 H1). cbn [append].
  inversion D2 as [| | | | | |r t2' g2 D4|r|]; subst; [|reflexivity].
  apply derives_dot in D4. subst t2. reflexivity.
Qed.

Lemma digit_text_not_na (before : string) (n : numeral) (after : string) :
  wf_numeral n = true ->
  String.eqb (before ++ numeral_text n ++ after) "N/A" = false.
Proof.
  intros Hn. destruct (String.eqb _ _) eqn:E; [|reflexivity].
  apply String.eqb_eq in E.
  assert (H : all_chars not_digit (before ++ numeral_text n ++ after) = true)
    by now rewrite E.
  rewrite all_chars_app in H. apply andb_true_iff in H as [_ H].
  destruct (numeral_head n after Hn) as (d & s & Hs & Hd).
  rewrite Hs in H. cbn [all_chars] in H. unfold not_digit in H.
  now rewrite Hd in H.
Qed.

Lemma show_payment_options_numeral (before : string) (n : numeral) (after : string) :
  all_chars plain_char before = true ->
  wf_numeral n = true -> stops number_char after = true ->
  show_payment_options (before ++ numeral_text n ++ after)
  = payment_options (numeral_value n).
Proof.
  intros Hb Hn Ha. unfold show_payment_options.
  rewrite (digit_text_not_na before n after Hn), (search_numeral _ _ _ Hb Hn Ha).
  cbn [whole]. now rewrite float_numeral.
Qed.

End PaymentFacts.

(** X7.  For a price text without a digit, ASCII text with or without the
    glyph before it, [show_payment_options] writes nothing: "N/A" returns at
    once, a text without digit or comma has no numeric part, and a numeric
    part made of commas (and a dot) makes [float] raise, which the bare
    [except] swallows. *)
Theorem show_payment_options_needs_digit (glyph : bool) (text : string) :
  all_chars is_ascii text = true -> all_chars not_digit text = true ->
  show_payment_options (glyph_text glyph ++ text) = [].
Proof.
  intros _ Ht.
  assert (H : all_chars not_digit (glyph_text glyph ++ text) = true)
    by (rewrite all_chars_app, Ht; now destruct glyph).
  unfold show_payment_options.
  destruct (String.eqb (glyph_text glyph ++ text) "N/A"); [reflexivity|].
  destruct (search false numeric_pattern (glyph_text glyph ++ text)) as [m|] eqn:E;
    [|reflexivity].
  apply search_sound in E as (before & after & E & D).
  rewrite E, !all_chars_app in H.
  apply andb_true_iff in H as [_ H]. apply andb_true_iff in H as [H _].
  now rewrite (numeric_match_no_digit _ _ D H).
Qed.

Lemma show_payment_options_needs_digit_witness :
  show_payment_options "N/A" = []
  /\ show_payment_options "call us" = []
  /\ show_payment_options (rupee ++ ",,.") = [].
Proof.
  split; [|split].
  - apply (show_payment_options_needs_digit false "N/A"); reflexivity.
  - apply (show_payment_options_needs_digit false "call us"); reflexivity.
  - apply (show_payment_options_needs_digit true ",,."); reflexivity.
Defined.

(** X8.  The instalments are computed from the first number of the price
    text.  When the text is ASCII, with or without the glyph before it, no
    digit or comma stands before the numeral N, and N is a whole number of at
    most twelve digits (commas allowed), the function writes the EMI
    heading, the four lines for 3, 6, 9 and 12 months with N divided by the
    number of months, and the bank offers.  For such N the quotients of the
    program round to the same hundredths as the exact ones. *)
Theorem show_payment_options_first_number
        (glyph : bool) (before : string) (n : numeral) (after : string) :
  all_chars is_ascii before = true -> all_chars plain_char before = true ->
  wf_numeral n = true -> whole_number n 12 = true ->
  all_chars is_ascii after = true -> stops number_char after = true ->
  show_payment_options (glyph_text glyph ++ before ++ numeral_text n ++ after)
  = payment_options (numeral_value n).
Proof.
  intros _ Hb Hn _ _ Ha. rewrite <- append_assoc.
  apply show_payment_options_numeral; [|exact Hn|exact Ha].
  rewrite all_chars_app, Hb. now destruct glyph.
Qed.

Lemma show_payment_options_first_number_witness :
  show_payment_options (rupee ++ " " ++ numeral_text (Numeral "1,50,000" None) ++ " onwards")
  = payment_options (numeral_value (Numeral "1,50,000" None))
  /\ payment_options (numeral_value (Numeral "1,50,000" None))
     = [MarkdownElement "##### EMI Options:";
        TextElement (rupee ++ "50,000.00/month for 3 months");
        TextElement (rupee ++ "25,000.00/month for 6 months");
        TextElement (rupee ++ "16,666.67/month for 9 months");
        TextElement (rupee ++ "12,500.00/month for 12 months");
        MarkdownElement "##### Bank Offers:";
        TextElement "10% instant discount with HDFC cards";
        TextElement "5% cashback with Amazon Pay ICICI card"].
Proof.
  split; [|reflexivity].
  apply (show_payment_options_first_number true " " (Numeral "1,50,000" None) " onwards");
    reflexivity.
Defined.

Section DigitFacts.

Lemma digits_value_uint (d : Decimal.uint) (acc : Z) :
  digits_value acc (NilEmpty.string_of_uint d) = uint_value acc d.
Proof.
  revert acc. induction d; intros acc; cbn [NilEmpty.string_of_uint digits_value uint_value];
    try reflexivity; rewrite IHd; reflexivity.
Qed.

Lemma uint_value_acc (d : Decimal.uint) (acc : positive) :
  uint_value (Zpos acc) d = Zpos (Pos.of_uint_acc d acc).
Proof.
  revert acc. induction d; intros acc; cbn [uint_value Pos.of_uint_acc];
    try reflexivity; rewrite <- IHd; f_equal; lia.
Qed.

Lemma uint_value_of_uint (d : Decimal.uint) :
  uint_value 0 d = Z.of_N (Pos.of_uint d).
Proof.
  induction d; cbn [uint_value Pos.of_uint]; try reflexivity;
    try exact IHd; apply (uint_value_acc d).
Qed.

Lemma to_uint_string (n : N) :
  NilZero.string_of_uint (N.to_uint n) = NilEmpty.string_of_uint (N.to_uint n).
Proof.
  destruct n as [|p]; [reflexivity|]. cbn [N.to_uint].
  pose proof (DecimalPos.Unsigned.to_uint_nonnil p) as H.
  unfold NilZero.string_of_uint. now destruct (Pos.to_uint p).
Qed.

(** reading back the decimal digits of a natural number gives the number *)
Lemma decimal_digits_value (n : Z) :
  (0 <= n)%Z -> digits_value 0 (decimal_digits n) = n.
Proof.
  intros H. unfold decimal_digits.
  rewrite to_uint_string, digits_value_uint, uint_value_of_uint.
  change (Pos.of_uint (N.to_uint (Z.to_N n))) with (N.of_uint (N.to_uint (Z.to_N n))).
  rewrite DecimalN.Unsigned.of_to. lia.
Qed.

Lemma digits_value_acc (s : string) (acc : Z) :
  digits_value acc s
  = (acc * 10 ^ Z.of_nat (String.length s) + digits_value 0 s)%Z.
Proof.
  revert acc. induction s as [|c s IH]; intros acc.
  - cbn. lia.
  - cbn [digits_value String.length]. rewrite IH, (IH (10 * 0 + digit_value c)%Z).
    rewrite Nat2Z.inj_succ, Z.pow_succ_r by lia. lia.
Qed.

Lemma decimal_digits_head (n : Z) :
  exists d s, decimal_digits n = String d s /\ is_digit d = true.
Proof.
  pose proof (decimal_digits_digits n) as H. unfold decimal_digits in *.
  rewrite to_uint_string in *.
  destruct (Z.to_N n) as [|p]; [exists "0"%char, ""; auto|].
  cbn [N.to_uint] in *.
  pose proof (DecimalPos.Unsigned.to_uint_nonnil p) as Hn.
  destruct (Pos.to_uint p); try contradiction;
    cbn [NilEmpty.string_of_uint]; eauto.
Qed.

Lemma group_thousands_body (s : string) :
  all_chars is_digit s = true -> all_chars digit_or_comma (group_thousands s) = true.
Proof.
  induction s as [|c s IH]; [reflexivity|].
  cbn [group_thousands all_chars]. intros H. apply andb_true_iff in H as [Hc Hs].
  rewrite (digit_is_number_char c Hc). cbn [andb].
  destruct (negb (is_empty s) && (String.length s mod 3 =? 0)%nat);
    cbn [all_chars]; now rewrite ?IH.
Qed.

Lemma remove_commas_group_thousands (s : string) :
  all_chars is_digit s = true -> remove_commas (group_thousands s) = s.
Proof.
  induction s as [|c s IH]; [reflexivity|].
  cbn [group_thousands all_chars remove_commas]. intros H.
  apply andb_true_iff in H as [Hc Hs]. rewrite (digit_not_comma c Hc).
  f_equal.
  destruct (negb (is_empty s) && (String.length s mod 3 =? 0)%nat);
    cbn [remove_commas]; rewrite ?Ascii.eqb_refl; now apply IH.
Qed.

Lemma two_digits_spec (r : Z) :
  (0 <= r < 100)%Z ->
  String.length (two_digits r) = 2%nat
  /\ all_chars is_digit (two_digits r) = true
  /\ digits_value 0 (two_digits r) = r.
Proof.
  intros H.
  assert (Hall : forallb (fun k =>
                   (String.length (two_digits (Z.of_nat k)) =? 2)%nat
                   && all_chars is_digit (two_digits (Z.of_nat k))
                   && (digits_value 0 (two_digits (Z.of_nat k)) =? Z.of_nat k)%Z)
                 (seq 0 100) = true) by (vm_compute; reflexivity).
  rewrite forallb_forall in Hall.
  specialize (Hall (Z.to_nat r)). rewrite Z2Nat.id in Hall by lia.
  assert (Hin : In (Z.to_nat r) (seq 0 100)) by (apply in_seq; lia).
  apply Hall in Hin. apply andb_true_iff in Hin as [Hin H3].
  apply andb_true_iff in Hin as [H1 H2].
  apply Nat.eqb_eq in H1. apply Z.eqb_eq in H3. auto.
Qed.

Lemma round_half_even_nonneg (q : Q) : (0 <= q)%Q -> (0 <= round_half_even q)%Z.
Proof.
  unfold Qle, round_half_even. cbn [Qnum Qden]. intros H. rewrite Z.mul_1_r in H.
  cbv zeta.
  assert (0 <= Qnum q / Z.pos (Qden q))%Z by (apply Z.div_pos; lia).
  repeat match goal with |- context [if ?b then _ else _] => destruct b end; lia.
Qed.

Lemma cents_nonneg (x : Q) : (0 <= x)%Q -> (0 <= cents x)%Z.
Proof.
  intros H. apply round_half_even_nonneg.
  unfold Qle, Qmult in *. cbn [Qnum Qden] in *. lia.
Qed.

Lemma format_amount_numeral (x : Q) : format_amount x = numeral_text (amount_numeral x).
Proof. reflexivity. Qed.

Lemma amount_numeral_wf (x : Q) : (0 <= x)%Q -> wf_numeral (amount_numeral x) = true.
Proof.
  intros H. pose proof (cents_nonneg x H) as Hc.
  unfold wf_numeral, amount_numeral. cbn [int_part frac_part].
  destruct (two_digits_spec (cents x mod 100)) as (Hl & Hd & _);
    [apply Z.mod_pos_bound; lia|].
  rewrite Hd.
  destruct (two_digits (cents x mod 100)) as [|c s]; [discriminate|].
  cbn [is_empty negb andb]. rewrite andb_true_r.
  pose proof (decimal_digits_digits (cents x / 100)) as Hall.
  destruct (decimal_digits_head (cents x / 100)) as (d & s' & E & Hhead).
  rewrite E in *. cbn [group_thousands]. rewrite Hhead. cbn [andb].
  cbn [all_chars] in Hall. apply andb_true_iff in Hall as [_ Hall].
  destruct (negb (is_empty s') && (String.length s' mod 3 =? 0)%nat);
    cbn [all_chars]; rewrite ?group_thousands_body; auto.
Qed.

Lemma amount_numeral_value (x : Q) :
  (0 <= x)%Q -> numeral_value (amount_numeral x) = Qred (cents x # 100).
Proof.
  intros H. pose proof (cents_nonneg x H) as Hc.
  unfold numeral_value, amount_numeral, decimal. cbn [int_part frac_part].
  rewrite remove_commas_group_thousands by apply decimal_digits_digits.
  destruct (two_digits_spec (cents x mod 100)) as (Hl & Hd & Hv);
    [apply Z.mod_pos_bound; lia|].
  rewrite Hl.
  assert (Hn : digits_value 0 (decimal_digits (cents x / 100) ++ two_digits (cents x mod 100))
               = cents x).
  { assert (Happ : forall a b acc,
               digits_value acc (a ++ b) = digits_value (digits_value acc a) b).
    { induction a as [|c a IH]; intros b acc; [reflexivity|]. cbn. apply IH. }
    rewrite Happ, digits_value_acc, Hl, Hv.
    rewrite decimal_digits_value by (apply Z.div_pos; lia).
    change (10 ^ Z.of_nat 2)%Z with 100%Z.
    pose proof (Z.div_mod (cents x) 100). lia. }
  rewrite Hn. reflexivity.
Qed.

End DigitFacts.

Section OrderFacts.

Ltac pick_subsequence := repeat first [apply SubNil | apply SubKeep | apply SubSkip].

Lemma subsequence_nil {A : Type} (m : list A) : subsequence [] m.
Proof. induction m; constructor; assumption. Qed.

Lemma subsequence_refl {A : Type} (m : list A) : subsequence m m.
Proof. induction m; constructor; assumption. Qed.

Lemma subsequence_app {A : Type} (l1 m1 l2 m2 : list A) :
  subsequence l1 m1 -> subsequence l2 m2 -> subsequence (l1 ++ l2) (m1 ++ m2).
Proof.
  intros H1 H2. induction H1; cbn [app]; [exact H2 | |]; constructor; assumption.
Qed.

Lemma subsequence_when (b : bool) (x : suffix) : subsequence (when b x) [x].
Proof. destruct b; cbn; pick_subsequence. Qed.

Lemma subsequence_colors (test : string -> bool) (l : list string) :
  subsequence (flat_map (fun color => when (test color) (SColor color)) l)
              (map SColor l).
Proof.
  induction l as [|c l IH]; cbn [flat_map map]; [constructor|].
  apply (subsequence_app _ [SColor c]); [apply subsequence_when | exact IH].
Qed.

Lemma subsequence_filter {A : Type} (f : A -> bool) (l m : list A) :
  subsequence l m -> subsequence (filter f l) (filter f m).
Proof.
  intros H. induction H; cbn [filter]; [constructor| |].
  - destruct (f x); [constructor|]; assumption.
  - destruct (f x); [constructor|]; assumption.
Qed.

Lemma subsequence_in {A : Type} (l m : list A) (x : A) :
  subsequence l m -> In x l -> In x m.
Proof.
  intros H. induction H; cbn [In]; [tauto | auto |].
  intros [-> | Hx]; auto.
Qed.

Lemma subsequence_nodup {A : Type} (l m : list A) :
  subsequence l m -> NoDup m -> NoDup l.
Proof.
  intros H. induction H; intros Hm; [constructor | |].
  - inversion Hm; auto.
  - inversion Hm as [|y m' Hx Hm']; subst. constructor; [|auto].
    intros Hin. apply Hx. now apply (subsequence_in l m).
Qed.

Lemma catalogue_nodup : NoDup suffix_catalogue.
Proof.
  unfold suffix_catalogue, colors. cbn [map app].
  repeat (constructor; [cbn [In]; intuition discriminate|]). constructor.
Qed.

Lemma query_suffixes_catalogue (user_preferences : string) :
  subsequence (query_suffixes user_preferences) suffix_catalogue.
Proof.
  unfold query_suffixes, suffix_catalogue. cbv zeta.
  apply (subsequence_app _ [SPro]); [apply subsequence_when|].
  apply (subsequence_app _ [SAir]); [apply subsequence_when|].
  apply (subsequence_app _ [SInch16]); [apply subsequence_when|].
  apply (subsequence_app _ [SInch14]); [apply subsequence_when|].
  apply (subsequence_app _ [SInch13]); [apply subsequence_when|].
  apply (subsequence_app _ [S512GB; S1TB; S2TB]).
  { repeat match goal with |- context [if ?b then _ else _] => destruct b end;
      pick_subsequence. }
  apply (subsequence_app _ [S16GB; S32GB]).
  { repeat match goal with |- context [if ?b then _ else _] => destruct b end;
      pick_subsequence. }
  apply subsequence_colors.
Qed.

Lemma filter_ram_when (b : bool) (x : suffix) :
  is_ram x = false -> filter is_ram (when b x) = [].
Proof. intros H. destruct b; simpl; [now rewrite H | reflexivity]. Qed.

Lemma filter_ram_colors (test : string -> bool) (l : list string) :
  filter is_ram (flat_map (fun color => when (test color) (SColor color)) l) = [].
Proof.
  induction l as [|c l IH]; simpl; [reflexivity|].
  rewrite filter_app, IH, app_nil_r. now apply filter_ram_when.
Qed.

(** the storage suffixes of a query are those of the storage chain *)
Lemma storage_suffixes (user_preferences : string) :
  filter is_storage (query_suffixes user_preferences)
  = if contains "512" user_preferences then [S512GB]
    else if contains "1tb" (lower user_preferences) || contains "1 tb" (lower user_preferences)
    then [S1TB]
    else if contains "2tb" (lower user_preferences) || contains "2 tb" (lower user_preferences)
    then [S2TB]
    else [].
Proof.
  unfold query_suffixes. cbv zeta. rewrite !filter_app.
  rewrite !filter_storage_when by reflexivity.
  rewrite filter_storage_colors.
  repeat match goal with |- context [if ?b then _ else _] => destruct b end; reflexivity.
Qed.

Lemma ram_suffixes (user_preferences : string) :
  filter is_ram (query_suffixes user_preferences)
  = if contains "16gb" (lower user_preferences) || contains "16 gb" (lower user_preferences)
    then [S16GB]
    else if contains "32gb" (lower user_preferences) || contains "32 gb" (lower user_preferences)
    then [S32GB]
    else [].
Proof.
  unfold query_suffixes. cbv zeta. rewrite !filter_app.
  rewrite !filter_ram_when by reflexivity.
  rewrite filter_ram_colors.
  repeat match goal with |- context [if ?b then _ else _] => destruct b end; reflexivity.
Qed.

End OrderFacts.

(** X9.  Whatever the order and the number of the keywords in the text, the
    query is the base product followed by suffixes taken from one fixed
    sequence (Pro, Air, 16-inch, 14-inch, 13-inch, storage, RAM, then the
    colors in the order of the list), in that order and each at most
    once. *)
Theorem query_suffixes_in_fixed_order (base_product user_preferences : string) :
  build_search_query base_product user_preferences
  = base_product ++ render_suffixes (query_suffixes user_preferences)
  /\ subsequence (query_suffixes user_preferences) suffix_catalogue
  /\ NoDup (query_suffixes user_preferences).
Proof.
  split; [apply build_search_query_suffixes|].
  split; [apply query_suffixes_catalogue|].
  apply (subsequence_nodup _ suffix_catalogue);
    [apply query_suffixes_catalogue | apply catalogue_nodup].
Qed.

(** X10.  No query holds two storage sizes or two RAM sizes: of the storage
    suffixes 512GB, 1TB, 2TB and of the RAM suffixes 16GB, 32GB at most one
    each is appended, for every text. *)
Theorem one_storage_one_ram (base_product user_preferences : string) :
  build_search_query base_product user_preferences
  = base_product ++ render_suffixes (query_suffixes user_preferences)
  /\ (List.length (filter is_storage (query_suffixes user_preferences)) <= 1)%nat
  /\ (List.length (filter is_ram (query_suffixes user_preferences)) <= 1)%nat.
Proof.
  split; [apply build_search_query_suffixes|].
  rewrite storage_suffixes, ram_suffixes.
  split; repeat match goal with |- context [if ?b then _ else _] => destruct b end;
    cbn [List.length]; lia.
Qed.

(** X11.  When the text holds a 16GB marker, the RAM suffix of the query is
    16GB and no other, also when the text holds a 32GB marker as well. *)
Theorem ram_suffix_exclusive (base_product user_preferences : string) :
  contains "16gb" (lower user_preferences) || contains "16 gb" (lower user_preferences) = true ->
  build_search_query base_product user_preferences
  = base_product ++ render_suffixes (query_suffixes user_preferences)
  /\ filter is_ram (query_suffixes user_preferences) = [S16GB].
Proof.
  intros H. split; [apply build_search_query_suffixes|].
  now rewrite ram_suffixes, H.
Qed.

Lemma ram_suffix_exclusive_witness :
  build_search_query "ThinkPad" "32GB, or 16 GB if cheaper"
  = "ThinkPad" ++ render_suffixes (query_suffixes "32GB, or 16 GB if cheaper")
  /\ filter is_ram (query_suffixes "32GB, or 16 GB if cheaper") = [S16GB].
Proof.
  apply (ram_suffix_exclusive "ThinkPad" "32GB, or 16 GB if cheaper"). reflexivity.
Defined.

Section BoundFacts.

Lemma row_points_bounds (rows : list rubric_row) (pl tl : string) :
  Forall (fun row => (0 <= points row)%Z) rows ->
  (0 <= sum_Z (map (fun row => row_points row pl tl) rows)
   <= sum_Z (map points rows))%Z.
Proof.
  unfold sum_Z.
  induction 1 as [|row rows Hrow _ IH]; cbn [map fold_right]; [lia|].
  assert (Hr : (0 <= row_points row pl tl <= points row)%Z)
    by (unfold row_points; destruct (awarded row pl tl); lia).
  lia.
Qed.

Lemma attribute_points_nonneg : Forall (fun row => (0 <= points row)%Z) attribute_rows.
Proof.
  unfold attribute_rows, fixed_rows, color_rows, colors. cbn [map app].
  repeat (constructor; [cbn; lia|]). constructor.
Qed.

Lemma seller_points_bounds (source_lower : string) :
  (0 <= seller_points source_lower <= 18)%Z.
Proof.
  unfold seller_points, preferred_sellers. cbn [map sum_Z fold_right].
  repeat match goal with |- context [if ?b then _ else _] => destruct b end; lia.
Qed.

Lemma penalty_bounds (pl tl : string) : (-10 <= penalty pl tl <= 0)%Z.
Proof. unfold penalty. destruct (_ && _); lia. Qed.

Lemma score_product_bounds (pl : string) (product : listing) :
  (-10 <= score_product pl product <= 83)%Z.
Proof.
  rewrite score_product_rubric. unfold rubric_score. cbv zeta.
  pose proof (row_points_bounds attribute_rows pl (lower (get_text (title product)))
                attribute_points_nonneg) as H.
  change (sum_Z (map points attribute_rows)) with 65%Z in H.
  pose proof (seller_points_bounds (lower (get_text (source product)))).
  pose proof (penalty_bounds pl (lower (get_text (title product)))).
  lia.
Qed.

End BoundFacts.

(** X12.  Every score lies between -10 and 83, and both ends are reached: the
    attribute rows give at most 65, the preferred sellers at most 18 and the
    penalty takes 10 off.  The scale of 20 that the page divides by is not a
    bound. *)
Theorem match_score_bounds :
  (forall user_preferences product,
      (-10 <= score_product (lower user_preferences) product <= 83)%Z)
  /\ (forall products user_preferences,
         Forall (fun product => (-10 <= get_score product <= 83)%Z)
                (filter_results products user_preferences))
  /\ score_product (lower every_marker) showcase_listing = 83%Z
  /\ score_product (lower "new") second_hand_listing = (-10)%Z.
Proof.
  split; [intros; apply score_product_bounds|].
  split; [|split; vm_compute; reflexivity].
  intros products user_preferences. rewrite Forall_forall. intros x Hx.
  unfold filter_results in Hx. cbv zeta in Hx.
  apply (Permutation_in _ (sorted_desc_perm get_score _)) in Hx.
  apply in_map_iff in Hx as (p & <- & _).
  apply score_product_bounds.
Qed.

Section RankingFacts.

Lemma sorted_desc_fixed {A : Type} (key : A -> Z) (l : list A) :
  StronglySorted (ranked key) l -> sorted_desc key l = l.
Proof.
  induction 1 as [|x l Hs IH Hx]; [reflexivity|].
  cbn [sorted_desc fold_right]. fold (sorted_desc key l). rewrite IH.
  destruct l as [|y l]; [reflexivity|]. cbn [insert_desc].
  inversion Hx as [|? ? Hy _]; subst. unfold ranked in Hy.
  apply Z.leb_le in Hy. now rewrite Hy.
Qed.

Lemma score_product_scored (pl : string) (score : Z) (product : listing) :
  score_product pl (set_match_score score product) = score_product pl product.
Proof. reflexivity. Qed.

Lemma set_match_score_twice (score : Z) (product : listing) :
  set_match_score score (set_match_score score product) = set_match_score score product.
Proof. reflexivity. Qed.

End RankingFacts.

(** X13.  Ranking a ranked list again changes nothing: the score of a listing
    depends on its title and source only, so every listing gets the score it
    has, and the stable sort leaves a list that is in order as it is. *)
Theorem filter_results_idempotent (products : list listing) (user_preferences : string) :
  filter_results (filter_results products user_preferences) user_preferences
  = filter_results products user_preferences.
Proof.
  set (ranked_once := filter_results products user_preferences).
  unfold filter_results at 1. cbv zeta.
  assert (Hsame : map (fun product =>
                         set_match_score (score_product (lower user_preferences) product)
                                         product) ranked_once
                  = ranked_once).
  { rewrite <- (map_id ranked_once) at 2. apply map_ext_in. intros x Hx.
    unfold ranked_once, filter_results in Hx. cbv zeta in Hx.
    apply (Permutation_in _ (sorted_desc_perm get_score _)) in Hx.
    apply in_map_iff in Hx as (p & <- & _).
    now rewrite score_product_scored, set_match_score_twice. }
  rewrite Hsame. apply sorted_desc_fixed.
  unfold ranked_once, filter_results. cbv zeta. apply sorted_desc_sorted.
Qed.

Section EdgeFacts.

Lemma no_preference_rows (tl : string) :
  map (fun row => row_points row "" tl) attribute_rows
  = map (fun _ => 0%Z) attribute_rows.
Proof.
  apply map_ext_in. intros row Hrow. unfold row_points, awarded.
  assert (H : forallb (fun row => negb (has_marker (pref_markers row) "")) attribute_rows
              = true) by (vm_compute; reflexivity).
  rewrite forallb_forall in H. apply H in Hrow. apply negb_true_iff in Hrow.
  now rewrite Hrow.
Qed.

Lemma no_title_rows (pl : string) :
  map (fun row => row_points row pl "") attribute_rows
  = map (fun _ => 0%Z) attribute_rows.
Proof.
  apply map_ext_in. intros row Hrow. unfold row_points, awarded.
  assert (H : forallb (fun row => negb (has_marker (item_markers row) "")) attribute_rows
              = true) by (vm_compute; reflexivity).
  rewrite forallb_forall in H. apply H in Hrow. apply negb_true_iff in Hrow.
  now rewrite Hrow, andb_false_r.
Qed.

End EdgeFacts.

(** X14.  With an empty preference text only the preferred-seller row can
    score: every listing gets 3 points for each preferred seller named in
    its source and nothing else, whatever its title. *)
Theorem empty_preferences_score (product : listing) :
  score_product (lower "") product = seller_points (lower (get_text (source product)))
  /\ (0 <= score_product (lower "") product <= 18)%Z.
Proof.
  assert (H : score_product (lower "") product
              = seller_points (lower (get_text (source product)))).
  { rewrite score_product_rubric. unfold rubric_score. cbv zeta.
    cbn [lower]. rewrite no_preference_rows.
    change (sum_Z (map (fun _ => 0%Z) attribute_rows)) with 0%Z.
    unfold penalty. cbn [contains startswith orb andb]. lia. }
  split; [exact H|]. rewrite H. apply seller_points_bounds.
Qed.

(** X15.  A listing that has neither a title nor a source scores 0 for every
    preference text: the missing fields are read as the empty string. *)
Theorem untitled_listing_score (user_preferences : string)
        (price old_price link : option string) (match_score : option Z) :
  score_product (lower user_preferences)
                (Listing None None price old_price link match_score) = 0%Z.
Proof.
  rewrite score_product_rubric. unfold rubric_score. cbv zeta.
  cbn [title source get_text lower]. rewrite no_title_rows.
  change (sum_Z (map (fun _ => 0%Z) attribute_rows)) with 0%Z.
  change (seller_points "") with 0%Z.
  unfold penalty. cbn [contains startswith orb]. now rewrite andb_false_r.
Qed.

Section FormFacts.

Variable follow_up_questions : list string.

Variable session_q : nat -> option string.

Variable user_name : string.

Lemma collect_loop (l : list nat) (preferences : string) :
  fold_left (fun preferences i =>
               if answered (session_q i)
               then preferences ++ nth i follow_up_questions ""
                    ++ ": " ++ get_text (session_q i) ++ ". "
               else preferences) l preferences
  = preferences
    ++ join (map (fun i => answer_piece (nth i follow_up_questions "") (session_q i)) l).
Proof.
  revert preferences. induction l as [|i l IH]; intros preferences; cbn [fold_left map join fold_right].
  - now rewrite append_empty_r.
  - rewrite IH. unfold answer_piece at 2. fold (join (map (fun i => answer_piece (nth i follow_up_questions "") (session_q i)) l)).
    destruct (answered (session_q i)); [|reflexivity].
    now rewrite !append_assoc.
Qed.

(** the preference text is the pieces of the questions, in order, and then
    the piece of the user's name *)
Lemma collect_preferences_pieces :
  collect_preferences follow_up_questions session_q user_name
  = join (map (fun i => answer_piece (nth i follow_up_questions "") (session_q i))
              (seq 0 (List.length follow_up_questions)))
    ++ name_piece user_name.
Proof.
  unfold collect_preferences, name_piece. cbv zeta. rewrite collect_loop. cbn [append].
  destruct (negb (is_empty user_name)); [reflexivity | now rewrite append_empty_r].
Qed.

Lemma join_app (l1 l2 : list string) : join (l1 ++ l2) = join l1 ++ join l2.
Proof.
  induction l1 as [|x l1 IH]; cbn [app join fold_right]; [reflexivity|].
  fold (join (l1 ++ l2)). fold (join l1). now rewrite IH, append_assoc.
Qed.

Lemma join_cons (x : string) (l : list string) : join (x :: l) = x ++ join l.
Proof. reflexivity. Qed.

(** the text of an answered question stands in the preference text *)
Lemma question_in_preferences (i : nat) :
  (i < List.length follow_up_questions)%nat -> answered (session_q i) = true ->
  exists before after,
    collect_preferences follow_up_questions session_q user_name
    = before ++ nth i follow_up_questions "" ++ after.
Proof.
  intros Hi Ha. rewrite collect_preferences_pieces.
  assert (Hin : In i (seq 0 (List.length follow_up_questions))) by (apply in_seq; lia).
  apply in_split in Hin as (l1 & l2 & ->).
  set (f := fun i => answer_piece (nth i follow_up_questions "") (session_q i)).
  rewrite map_app, join_app. cbn [map]. rewrite join_cons.
  assert (Hf : f i = nth i follow_up_questions "" ++ ": " ++ get_text (session_q i) ++ ". ")
    by (unfold f, answer_piece; now rewrite Ha).
  rewrite Hf.
  exists (join (map f l1)),
         (": " ++ get_text (session_q i) ++ ". " ++ join (map f l2) ++ name_piece user_name).
  now rewrite !append_assoc.
Qed.

Lemma name_in_preferences :
  is_empty user_name = false ->
  exists before after,
    collect_preferences follow_up_questions session_q user_name
    = before ++ user_name ++ after.
Proof.
  intros H. rewrite collect_preferences_pieces. unfold name_piece. rewrite H. cbn [negb].
  set (pieces := join _).
  exists (pieces ++ " For user: "), ".". now rewrite !append_assoc.
Qed.

End FormFacts.

Section LeakFacts.

Lemma contains_inside (m before s after : string) :
  contains m s = true -> contains m (before ++ s ++ after) = true.
Proof. intros H. apply contains_app_r. now apply contains_app_l. Qed.

Lemma contains_lower_inside (m before s after : string) :
  contains m (lower s) = true -> contains m (lower (before ++ s ++ after)) = true.
Proof. intros H. rewrite !lower_app. now apply contains_inside. Qed.

End LeakFacts.

Section ScanFacts.

Variable session_q : nat -> option string.

Variable user_name : string.

Lemma raw_marker_of_question (qs : list string) (i : nat) (m : string) :
  (i < List.length qs)%nat -> answered (session_q i) = true ->
  contains m (nth i qs "") = true ->
  contains m (collect_preferences qs session_q user_name) = true.
Proof.
  intros Hi Ha Hm.
  destruct (question_in_preferences qs session_q user_name i Hi Ha) as (b & a & ->).
  now apply contains_inside.
Qed.

Lemma marker_of_question (qs : list string) (i : nat) (m : string) :
  (i < List.length qs)%nat -> answered (session_q i) = true ->
  contains m (lower (nth i qs "")) = true ->
  contains m (lower (collect_preferences qs session_q user_name)) = true.
Proof.
  intros Hi Ha Hm.
  destruct (question_in_preferences qs session_q user_name i Hi Ha) as (b & a & ->).
  now apply contains_lower_inside.
Qed.

Lemma marker_of_name (qs : list string) (m : string) :
  is_empty user_name = false -> contains m (lower user_name) = true ->
  contains m (lower (collect_preferences qs session_q user_name)) = true.
Proof.
  intros Hn Hm.
  destruct (name_in_preferences qs session_q user_name Hn) as (b & a & ->).
  now apply contains_lower_inside.
Qed.

End ScanFacts.

(** X16.  In the MacBook form the texts of the questions are part of the
    preference text, so an answered question brings its own keywords into
    the query, whatever the answer: the product-line question gives both Pro
    and Air, the screen-size question all of 16-inch, 14-inch and 13-inch,
    the storage question the suffix 512GB and no other storage size, the RAM
    question 16GB and no other RAM size, the color question silver, space
    grey and gold. *)
Theorem macbook_questions_are_scanned
        (base_product : string) (session_q : nat -> option string) (user_name : string) :
  contains "macbook" (lower base_product) = true ->
  let preferences :=
    collect_preferences (get_follow_up_questions base_product) session_q user_name in
  let suffixes := query_suffixes preferences in
  build_search_query base_product preferences = base_product ++ render_suffixes suffixes
  /\ (answered (session_q 0%nat) = true -> In SPro suffixes /\ In SAir suffixes)
  /\ (answered (session_q 1%nat) = true ->
      In SInch16 suffixes /\ In SInch14 suffixes /\ In SInch13 suffixes)
  /\ (answered (session_q 2%nat) = true -> filter is_storage suffixes = [S512GB])
  /\ (answered (session_q 4%nat) = true -> filter is_ram suffixes = [S16GB])
  /\ (answered (session_q 5%nat) = true ->
      In (SColor "silver") suffixes /\ In (SColor "space grey") suffixes
      /\ In (SColor "gold") suffixes).
Proof.
  intros Hm. unfold get_follow_up_questions. rewrite Hm. cbv zeta.
  set (preferences := collect_preferences macbook_questions session_q user_name).
  assert (Hraw : forall i m, (i < 9)%nat -> answered (session_q i) = true ->
                   contains m (nth i macbook_questions "") = true ->
                   contains m preferences = true)
    by (intros; now apply (raw_marker_of_question session_q user_name macbook_questions i)).
  assert (Hlow : forall i m, (i < 9)%nat -> answered (session_q i) = true ->
                   contains m (lower (nth i macbook_questions "")) = true ->
                   contains m (lower preferences) = true)
    by (intros; now apply (marker_of_question session_q user_name macbook_questions i)).
  split; [apply build_search_query_suffixes|].
  split; [|split; [|split; [|split]]]; intros Ha.
  - split; apply in_query_suffixes; cbn [appended];
      apply (Hlow 0%nat); solve [lia | assumption | reflexivity].
  - split; [|split]; apply in_query_suffixes; cbn [appended].
    + rewrite (Hraw 1%nat "16"); solve [lia | assumption | reflexivity].
    + rewrite (Hraw 1%nat "14"); solve [lia | assumption | reflexivity].
    + rewrite (Hraw 1%nat "13"); solve [lia | assumption | reflexivity].
  - rewrite storage_suffixes, (Hraw 2%nat "512");
      solve [lia | assumption | reflexivity].
  - rewrite ram_suffixes, (Hlow 4%nat "16gb");
      solve [lia | assumption | reflexivity].
  - split; [|split]; apply in_query_suffixes; cbn [appended];
      (split; [cbn; tauto|]); apply (Hlow 5%nat);
      solve [lia | assumption | reflexivity].
Qed.

Lemma macbook_questions_are_scanned_witness :
  contains "macbook" (lower "MacBook M3") = true
  /\ filter is_storage
       (query_suffixes
          (collect_preferences (get_follow_up_questions "MacBook M3")
                               (one_answer 2 "1TB") ""))
     = [S512GB].
Proof.
  split; [reflexivity|].
  destruct (macbook_questions_are_scanned "MacBook M3" (one_answer 2 "1TB") "" eq_refl)
    as (_ & _ & _ & H & _).
  exact (H eq_refl).
Defined.

(** X17.  In the iPhone form the model question, once answered, brings "Pro"
    and "14" into the preference text, so the query gets " Pro" and
    " 14-inch"; the storage question, once answered, fixes the storage
    suffix to 512GB. *)
Theorem iphone_questions_are_scanned
        (base_product : string) (session_q : nat -> option string) (user_name : string) :
  contains "macbook" (lower base_product) = false ->
  contains "iphone" (lower base_product) = true ->
  let preferences :=
    collect_preferences (get_follow_up_questions base_product) session_q user_name in
  let suffixes := query_suffixes preferences in
  build_search_query base_product preferences = base_product ++ render_suffixes suffixes
  /\ (answered (session_q 0%nat) = true -> In SPro suffixes /\ In SInch14 suffixes)
  /\ (answered (session_q 1%nat) = true -> filter is_storage suffixes = [S512GB]).
Proof.
  intros Hm Hi. unfold get_follow_up_questions. rewrite Hm, Hi. cbv zeta.
  set (preferences := collect_preferences iphone_questions session_q user_name).
  split; [apply build_search_query_suffixes|].
  split; intros Ha.
  - split; apply in_query_suffixes; cbn [appended].
    + apply (marker_of_question session_q user_name iphone_questions 0%nat);
        solve [cbn; lia | assumption | reflexivity].
    + unfold preferences.
      rewrite (raw_marker_of_question session_q user_name iphone_questions 0%nat "14");
        solve [cbn; lia | assumption | reflexivity].
  - rewrite storage_suffixes. unfold preferences.
    rewrite (raw_marker_of_question session_q user_name iphone_questions 1%nat "512");
      solve [cbn; lia | assumption | reflexivity].
Qed.

Lemma iphone_questions_are_scanned_witness :
  build_search_query "iPhone 15"
    (collect_preferences (get_follow_up_questions "iPhone 15") (one_answer 0 "15") "")
  = "iPhone 15 Pro 14-inch".
Proof.
  destruct (iphone_questions_are_scanned "iPhone 15" (one_answer 0 "15") "" eq_refl eq_refl)
    as (H & _).
  rewrite H. reflexivity.
Defined.

(** X18.  Each of the three question lists asks "Are you looking for new or
    refurbished ...?".  Once that question is answered, whatever the answer,
    the preference text holds "new", and every listing whose title holds
    "refurbished" or "used" gets the penalty of 10. *)
Theorem condition_question_brings_penalty
        (base_product : string) (session_q : nat -> option string) (user_name : string) :
  let follow_up_questions := get_follow_up_questions base_product in
  let preferences := collect_preferences follow_up_questions session_q user_name in
  (exists i, (i < List.length follow_up_questions)%nat
             /\ startswith condition_question (nth i follow_up_questions "") = true)
  /\ (forall i product,
         (i < List.length follow_up_questions)%nat ->
         startswith condition_question (nth i follow_up_questions "") = true ->
         answered (session_q i) = true ->
         contains "refurbished" (lower (get_text (title product)))
         || contains "used" (lower (get_text (title product))) = true ->
         score_product (lower preferences) product
         = (sum_Z (map (fun row => row_points row (lower preferences)
                                              (lower (get_text (title product))))
                       attribute_rows)
            + seller_points (lower (get_text (source product))) - 10)%Z).
Proof.
  cbv zeta. split.
  - unfold get_follow_up_questions.
    destruct (contains "macbook" (lower base_product));
      [exists 6%nat; split; [cbn; lia | reflexivity]|].
    destruct (contains "iphone" (lower base_product));
      [exists 4%nat | exists 3%nat]; (split; [cbn; lia | reflexivity]).
  - intros i product Hi Hq Ha Ht.
    rewrite score_product_rubric. unfold rubric_score, penalty. cbv zeta.
    rewrite Ht, andb_true_r.
    rewrite (marker_of_question session_q user_name _ i "new" Hi Ha); [reflexivity|].
    apply startswith_true in Hq as (r & ->). reflexivity.
Qed.

Lemma condition_question_brings_penalty_witness :
  score_product
    (lower (collect_preferences (get_follow_up_questions "MacBook M3")
                                (one_answer 6 "refurbished is fine") ""))
    refurbished_listing
  = (sum_Z (map (fun row =>
                   row_points row
                     (lower (collect_preferences (get_follow_up_questions "MacBook M3")
                                                 (one_answer 6 "refurbished is fine") ""))
                     (lower (get_text (title refurbished_listing))))
                attribute_rows)
     + seller_points (lower (get_text (source refurbished_listing))) - 10)%Z.
Proof.
  destruct (condition_question_brings_penalty "MacBook M3"
              (one_answer 6 "refurbished is fine") "") as (_ & H).
  apply (H 6%nat refurbished_listing);
    [apply Nat.ltb_lt; reflexivity | reflexivity | reflexivity | reflexivity].
Defined.

(** X19.  The user's name is appended to the preference text and scanned like
    the answers: a keyword inside the name is detected, so a name that holds
    "pro" adds " Pro" to the query and a name that holds "air" adds
    " Air". *)
Theorem user_name_is_scanned
        (follow_up_questions : list string) (session_q : nat -> option string)
        (user_name : string) :
  is_empty user_name = false ->
  let preferences := collect_preferences follow_up_questions session_q user_name in
  (forall marker,
      contains marker (lower user_name) = true ->
      contains marker (lower preferences) = true)
  /\ (contains "pro" (lower user_name) = true -> In SPro (query_suffixes preferences))
  /\ (contains "air" (lower user_name) = true -> In SAir (query_suffixes preferences)).
Proof.
  intros Hn. cbv zeta.
  assert (H : forall marker,
             contains marker (lower user_name) = true ->
             contains marker
               (lower (collect_preferences follow_up_questions session_q user_name)) = true)
    by (intros; now apply marker_of_name).
  split; [exact H|].
  split; intros Hm; apply in_query_suffixes; cbn [appended]; now apply H.
Qed.

Lemma user_name_is_scanned_witness :
  is_empty "Claire" = false
  /\ build_search_query "Dell XPS"
       (collect_preferences (get_follow_up_questions "Dell XPS") (fun _ => None) "Claire")
     = "Dell XPS Air"
  /\ In SAir (query_suffixes
                (collect_preferences (get_follow_up_questions "Dell XPS")
                                     (fun _ => None) "Claire")).
Proof.
  split; [reflexivity|]. split; [reflexivity|].
  destruct (user_name_is_scanned (get_follow_up_questions "Dell XPS") (fun _ => None)
                                 "Claire" eq_refl) as (_ & _ & H).
  exact (H eq_refl).
Defined.

Section LeadFacts.

Ltac by_cases_on c :=
  destruct c as [[] [] [] [] [] [] [] []]; try discriminate; reflexivity.

Lemma lead_char_lower (c : ascii) : lead_char (lower_char c) = lead_char c.
Proof. by_cases_on c. Qed.

Lemma lead_char_space (c : ascii) : is_space c = true -> lead_char c = true.
Proof. by_cases_on c. Qed.

Lemma all_chars_lead_lower (s : string) :
  all_chars lead_char (lower s) = all_chars lead_char s.
Proof.
  induction s as [|c s IH]; [reflexivity|].
  cbn [lower all_chars]. now rewrite lead_char_lower, IH.
Qed.

Lemma skip_literal_lower (l t : string) :
  skip_literal true l t = Some "" -> lower t = lower l.
Proof.
  revert t. induction l as [|a l IH]; intros [|b t] H; cbn [skip_literal] in H;
    try discriminate.
  - reflexivity.
  - destruct (Ascii.eqb (lower_char a) (lower_char b)) eqn:E; [|discriminate].
    apply Ascii.eqb_eq in E. cbn [lower]. now rewrite E, (IH t H).
Qed.

Lemma literal_lead (l t : string) :
  all_chars lead_char l = true -> skip_literal true l t = Some "" ->
  all_chars lead_char t = true.
Proof.
  intros Hl H. apply skip_literal_lower in H.
  now rewrite <- all_chars_lead_lower, H, all_chars_lead_lower.
Qed.

(** a match of [price_pattern] starts with text free of digits and dots,
    followed by a digit *)
Lemma derives_price_lead (t : string) (g : groups) :
  derives true price_pattern t g ->
  exists a d rest,
    t = a ++ String d rest /\ all_chars lead_char a = true /\ is_digit d = true.
Proof.
  intros D. unfold price_pattern in D.
  apply derives_seq in D as (t1 & ? & ? & ? & -> & _ & D1 & D).
  apply derives_seq in D as (t2 & ? & ? & ? & -> & _ & D2 & D).
  apply derives_seq in D as (t3 & t4 & ? & ? & -> & _ & D3 & _).
  apply derives_group in D3 as (? & _ & D3).
  apply derives_number in D3 as (_ & n & Wn & ->).
  destruct (numeral_head n t4 Wn) as (d & rest & Hd & Hdig).
  exists (t1 ++ t2), d, rest. rewrite append_assoc, Hd.
  split; [reflexivity|]. split; [|exact Hdig].
  rewrite all_chars_app. apply andb_true_iff. split.
  - inversion D1 as [| | | | | |r t' g' D4|r|]; subst; [|reflexivity].
    apply derives_seq in D4 as (tb & ts & ? & ? & -> & _ & Db & Ds).
    rewrite all_chars_app. apply andb_true_iff. split.
    + inversion Db; subst. now apply (literal_lead "between").
    + inversion Ds as [| |cl c ts' Hs| | | | | |]; subst.
      apply (all_chars_weaken is_space); [apply lead_char_space | exact Hs].
  - inversion D2 as [| | | | | |r t' g' D4|r|]; subst; [|reflexivity].
    inversion D4; subst. now apply (literal_lead rupee).
Qed.

Lemma lead_meets_dot (a w : string) (d : ascii) (rest s : string) :
  a ++ String d rest = w ++ String "." s ->
  all_chars lead_char a = true -> is_digit d = true ->
  all_chars not_digit w = true -> False.
Proof.
  revert w. induction a as [|c a IH]; intros [|c' w] E Ha Hd Hw; cbn [append] in E;
    injection E as Ec E.
  - subst d. discriminate.
  - subst c'. cbn [all_chars] in Hw. unfold not_digit in Hw. now rewrite Hd in Hw.
  - subst c. discriminate.
  - cbn [all_chars] in Ha, Hw.
    apply andb_true_iff in Ha as [_ Ha]. apply andb_true_iff in Hw as [_ Hw].
    exact (IH w E Ha Hd Hw).
Qed.

(** no match starts inside a text without digits that a full stop follows *)
Lemma no_match_digitless (w s : string) :
  all_chars not_digit w = true ->
  match_here true price_pattern (w ++ String "." s) = None.
Proof.
  intros Hw. destruct (match_here true price_pattern (w ++ String "." s)) as [m|] eqn:E;
    [|reflexivity].
  exfalso. apply match_here_sound in E as (s' & Hs & D).
  apply derives_price_lead in D as (a & d & rest & Hm & Ha & Hd).
  rewrite Hm, append_assoc in Hs. cbn [append] in Hs.
  exact (lead_meets_dot a w d (rest ++ s') s (eq_sym Hs) Ha Hd Hw).
Qed.

Lemma search_skip_digitless (w s : string) :
  all_chars not_digit w = true ->
  search true price_pattern (w ++ String "." s)
  = search true price_pattern (String "." s).
Proof.
  induction w as [|c w IH]; [reflexivity|].
  intros Hw. cbn [append].
  rewrite search_skip by (apply (no_match_digitless (String c w) s Hw)).
  cbn [all_chars] in Hw. apply andb_true_iff in Hw as [_ Hw]. now apply IH.
Qed.

End LeadFacts.

Section BudgetFacts.

Ltac pass_over_text := repeat (rewrite search_skip by reflexivity).

(** the search passes over the piece of each question that stands before the
    budget question, when the answer holds no digit *)
Lemma early_piece_skipped (i : nat) (answer : option string) (s : string) :
  (i < 3)%nat -> all_chars not_digit (get_text answer) = true ->
  search true price_pattern (answer_piece (nth i macbook_questions "") answer ++ s)
  = search true price_pattern s.
Proof.
  intros Hi Ha. unfold answer_piece.
  destruct (answered answer); [|reflexivity].
  destruct i as [|[|[|i]]]; [| | |lia];
    cbn [nth macbook_questions]; rewrite !append_assoc; cbn [append];
    pass_over_text; rewrite (search_skip_digitless _ _ Ha); pass_over_text;
    reflexivity.
Qed.

Lemma budget_piece_found (answer : option string) (s : string) :
  answered answer = true ->
  search true price_pattern (answer_piece (nth 3 macbook_questions "") answer ++ s)
  = Some {| whole := phrase_text budget_example;
            captures := [(2%nat, "1,50,000"); (1%nat, "90,000")] |}.
Proof.
  intros Ha. unfold answer_piece. rewrite Ha.
  cbn [nth macbook_questions]. rewrite !append_assoc. cbn [append].
  pass_over_text.
  apply search_at_start.
  apply (match_phrase budget_example (")" ++ ": " ++ get_text answer ++ ". " ++ s));
    reflexivity.
Qed.

End BudgetFacts.

(** X20.  In the MacBook form the budget question carries an example range in
    its own text.  Once that question is answered, and when the answers
    given before it are ASCII text without a digit, the bounds extracted are
    those of the example, 90000 and 150000, whatever budget was typed: the
    search takes the leftmost range of the preference text, and the question
    stands before its answer. *)
Theorem budget_example_overrides_answer
        (base_product : string) (session_q : nat -> option string) (user_name : string) :
  contains "macbook" (lower base_product) = true ->
  (forall i, (i < 3)%nat ->
             all_chars is_ascii (get_text (session_q i)) = true
             /\ all_chars not_digit (get_text (session_q i)) = true) ->
  answered (session_q 3%nat) = true ->
  extract_price_range
    (collect_preferences (get_follow_up_questions base_product) session_q user_name)
  = Returns (Some (90000 # 1)%Q, Some (150000 # 1)%Q).
Proof.
  intros Hm Hearly Ha. unfold get_follow_up_questions. rewrite Hm.
  assert (Hs : search true price_pattern
                      (collect_preferences macbook_questions session_q user_name)
               = Some {| whole := phrase_text budget_example;
                         captures := [(2%nat, "1,50,000"); (1%nat, "90,000")] |}).
  { rewrite collect_preferences_pieces.
    change (List.length macbook_questions) with 9%nat.
    cbn [seq map]. unfold join. cbn [fold_right]. rewrite !append_assoc.
    rewrite (early_piece_skipped 0), (early_piece_skipped 1), (early_piece_skipped 2)
      by (try lia; apply Hearly; lia).
    now apply budget_piece_found. }
  unfold extract_price_range. rewrite Hs. reflexivity.
Qed.

Lemma budget_example_overrides_answer_witness :
  collect_preferences (get_follow_up_questions "MacBook M3")
                      (one_answer 3 "between 2,00,000 and 3,00,000") ""
  = nth 3 macbook_questions "" ++ ": between 2,00,000 and 3,00,000. "
  /\ extract_price_range
       (collect_preferences (get_follow_up_questions "MacBook M3")
                            (one_answer 3 "between 2,00,000 and 3,00,000") "")
     = Returns (Some (90000 # 1)%Q, Some (150000 # 1)%Q).
Proof.
  split; [reflexivity|].
  apply (budget_example_overrides_answer
           "MacBook M3" (one_answer 3 "between 2,00,000 and 3,00,000") "").
  - reflexivity.
  - intros [|[|[|i]]] Hi; [split; reflexivity | split; reflexivity | split; reflexivity | lia].
  - reflexivity.
Defined.

Section FetchFacts.

Variable get_dict : params -> outcome (option (list listing)).

Variable query : string.

Variables min_price max_price : option Q.

Variable page : list notice.

Lemma fetch_returns (key : string) (results : option (list listing)) :
  get_dict (request key query min_price max_price) = Returns results ->
  fetch_shopping_results get_dict (Returns key) query min_price max_price page
  = (Returns (map normalise_prices (match results with Some l => l | None => [] end)),
     page).
Proof.
  intros H. unfold fetch_shopping_results, try_except, bind, lift, ret. now rewrite H.
Qed.


End FetchFacts.

Section NormaliseFacts.

Lemma ensure_rupee_format_shape (p : string) :
  ensure_rupee_format (Some p) = "N/A"
  \/ startswith rupee (ensure_rupee_format (Some p)) = true.
Proof.
  destruct (is_empty p || String.eqb p "N/A") eqn:E.
  - left. unfold ensure_rupee_format, ensure_rupee_format_with. now rewrite E.
  - right. rewrite (ensure_rupee_format_prefixed p E).
    apply convert_keeps_glyph, prefixed_has_glyph.
Qed.

Lemma normalised_field (field : option string) :
  normalised (match field with
              | Some p => Some (ensure_rupee_format (Some p))
              | None => None
              end).
Proof.
  destruct field as [p|]; intros text H; [|discriminate].
  pose proof (ensure_rupee_format_shape p) as Hp.
  injection H as <-. exact Hp.
Qed.

Lemma normalise_prices_idempotent (result : listing) :
  normalise_prices (normalise_prices result) = normalise_prices result.
Proof.
  unfold normalise_prices. cbn [title source price old_price link match_score].
  destruct (price result) as [p|], (old_price result) as [o|];
    now rewrite ?(ensure_rupee_format_with_idempotent render_inr render_inr_no_dollar (Some _)).
Qed.

End NormaliseFacts.

(** X21.  When the outbound call returns, [fetch_shopping_results] writes no
    notice and returns the listings of "shopping_results" in their order,
    none when the key is missing; each keeps its title, source, link and
    score, and each price and old price that is present is "N/A" or begins
    with the glyph.  Normalising a listing again changes nothing. *)
Theorem fetch_success_normalises
        (get_dict : params -> outcome (option (list listing)))
        (key query : string) (min_price max_price : option Q) (page : list notice)
        (results : option (list listing)) :
  get_dict (request key query min_price max_price) = Returns results ->
  let shopping_results := match results with Some l => l | None => [] end in
  exists products,
    fetch_shopping_results get_dict (Returns key) query min_price max_price page
    = (Returns products, page)
    /\ map title products = map title shopping_results
    /\ map source products = map source shopping_results
    /\ map link products = map link shopping_results
    /\ map match_score products = map match_score shopping_results
    /\ Forall (fun product => normalised (price product) /\ normalised (old_price product))
              products
    /\ map normalise_prices products = products.
Proof.
  intros H. cbv zeta.
  exists (map normalise_prices (match results with Some l => l | None => [] end)).
  split; [now apply fetch_returns|].
  rewrite !map_map. cbn [normalise_prices title source link match_score].
  repeat split.
  - apply Forall_forall. intros x Hx. apply in_map_iff in Hx as (r & <- & _).
    cbn [normalise_prices price old_price]. split; apply normalised_field.
  - apply map_ext. intros r. apply normalise_prices_idempotent.
Qed.

Lemma fetch_success_normalises_witness :
  exists products,
    fetch_shopping_results
      (fun _ => Returns (Some [Listing (Some "Laptop") (Some "Croma") (Some "$12.50")
                                       None None None]))
      (Returns "key") "Laptop" None None []
    = (Returns products, [])
    /\ map price products = [Some (rupee ++ "1,043.75")].
Proof.
  destruct (fetch_success_normalises
              (fun _ => Returns (Some [Listing (Some "Laptop") (Some "Croma") (Some "$12.50")
                                               None None None]))
              "key" "Laptop" None None []
              (Some [Listing (Some "Laptop") (Some "Croma") (Some "$12.50") None None None])
              eq_refl) as (products & H & _).
  exists products. split; [exact H|].
  cbv in H. injection H as <-. reflexivity.
Defined.

Section HandlerFacts.

Variable get_dict : params -> outcome (option (list listing)).

Variable key base_product preferences : string.

Variable page : list notice.



End HandlerFacts.


Section ReadBackFacts.

(** the payment options of a price that the program rendered itself *)
Lemma show_payment_options_rendered (x : Q) :
  (0 <= x)%Q ->
  show_payment_options (rupee ++ format_amount x)
  = payment_options (Qred (cents x # 100)).
Proof.
  intros H. rewrite format_amount_numeral, <- (append_empty_r (numeral_text _)).
  rewrite (show_payment_options_numeral rupee (amount_numeral x) "");
    [|reflexivity | now apply amount_numeral_wf | reflexivity].
  now rewrite amount_numeral_value.
Qed.

End ReadBackFacts.

(** X23.  A price that the program rendered, the glyph and a finite
    non-negative amount with two decimals and grouped thousands, is read
    back by the numeric pattern as a whole; stripping its commas leaves the
    plain literal of the amount in hundredths, digits, a dot and two digits,
    which [float] accepts. *)
Theorem rendered_price_read_back (x : Q) :
  (0 <= x)%Q -> (x <= max_float)%Q ->
  search false numeric_pattern (rupee ++ format_amount x)
  = Some {| whole := format_amount x; captures := [] |}
  /\ remove_commas (format_amount x)
     = decimal_digits (cents x / 100) ++ "." ++ two_digits (cents x mod 100)
  /\ exists price, float (remove_commas (format_amount x)) = Returns price.
Proof.
  intros H _. split; [|split].
  - rewrite format_amount_numeral.
    rewrite <- (append_empty_r (numeral_text _)) at 1.
    apply search_numeral; [reflexivity | now apply amount_numeral_wf | reflexivity].
  - unfold format_amount. cbv zeta. fold (cents x).
    rewrite remove_commas_app, remove_commas_group_thousands
      by apply decimal_digits_digits.
    f_equal. change ("." ++ two_digits (cents x mod 100))
      with (String "." (two_digits (cents x mod 100))).
    cbn [remove_commas]. change (Ascii.eqb "." ",") with false. cbv iota. f_equal.
    apply remove_commas_digits.
    apply two_digits_spec, Z.mod_pos_bound. lia.
  - rewrite format_amount_numeral, float_numeral by now apply amount_numeral_wf.
    eauto.
Qed.

Lemma rendered_price_read_back_witness :
  format_amount (2469135 # 2) = "1,234,567.50"
  /\ search false numeric_pattern (rupee ++ format_amount (2469135 # 2))
     = Some {| whole := format_amount (2469135 # 2); captures := [] |}
  /\ remove_commas (format_amount (2469135 # 2))
     = decimal_digits (cents (2469135 # 2) / 100) ++ "."
       ++ two_digits (cents (2469135 # 2) mod 100)
  /\ exists price, float (remove_commas (format_amount (2469135 # 2))) = Returns price.
Proof.
  split; [reflexivity|].
  apply (rendered_price_read_back (2469135 # 2)); vm_compute; discriminate.
Defined.

(** X24.  The payment options of a dollar price that went through
    [ensure_rupee_format] are those of the converted amount: N times 83.5,
    divided by 3, 6, 9 and 12.  This holds for an ASCII price whose first
    number N follows the dollar sign and is a whole number of at most nine
    digits (commas allowed); for such N the conversion is exact in binary
    floating point and the quotients round to the same hundredths as the
    exact ones. *)
Theorem payment_options_of_converted_price
        (before : string) (n : numeral) (after : string) :
  all_chars is_ascii before = true -> all_chars plain_char before = true ->
  contains "$" before = true ->
  wf_numeral n = true -> whole_number n 9 = true ->
  all_chars is_ascii after = true -> stops number_char after = true ->
  show_payment_options (ensure_rupee_format (Some (before ++ numeral_text n ++ after)))
  = payment_options (Qred (cents (Qmult (numeral_value n) usd_to_inr) # 100)).
Proof.
  intros _ Hb Hd Hn _ _ Ha.
  rewrite (ensure_rupee_format_dollars before n after Hb Hd Hn Ha).
  apply show_payment_options_rendered.
  apply Qmult_le_0_compat; [apply numeral_value_nonneg | discriminate].
Qed.

Lemma payment_options_of_converted_price_witness :
  show_payment_options (ensure_rupee_format (Some ("$" ++ numeral_text (Numeral "120" None) ++ "")))
  = payment_options (Qred (cents (Qmult (numeral_value (Numeral "120" None)) usd_to_inr) # 100))
  /\ payment_options (Qred (cents (Qmult (numeral_value (Numeral "120" None)) usd_to_inr) # 100))
     = [MarkdownElement "##### EMI Options:";
        TextElement (rupee ++ "3,340.00/month for 3 months");
        TextElement (rupee ++ "1,670.00/month for 6 months");
        TextElement (rupee ++ "1,113.33/month for 9 months");
        TextElement (rupee ++ "835.00/month for 12 months");
        MarkdownElement "##### Bank Offers:";
        TextElement "10% instant discount with HDFC cards";
        TextElement "5% cashback with Amazon Pay ICICI card"].
Proof.
  split; [|reflexivity].
  apply (payment_options_of_converted_price "$" (Numeral "120" None) ""); reflexivity.
Defined.

Section DigitMarkerFacts.

Ltac by_cases_on c :=
  destruct c as [[] [] [] [] [] [] [] []]; try discriminate; reflexivity.

Lemma lower_char_digit_origin (c : ascii) :
  is_digit (lower_char c) = true -> lower_char c = c.
Proof. by_cases_on c. Qed.

Lemma lower_split (s x y : string) :
  lower s = x ++ y -> exists s1 s2, s = s1 ++ s2 /\ lower s1 = x /\ lower s2 = y.
Proof.
  revert s. induction x as [|c x IH]; intros s H.
  - exists "", s. auto.
  - destruct s as [|d s]; [discriminate|]. cbn [lower append] in H.
    injection H as Hc H. destruct (IH s H) as (s1 & s2 & -> & H1 & H2).
    exists (String d s1), s2. cbn [lower append]. now rewrite Hc, H1.
Qed.

Lemma lower_digits_origin (s : string) :
  all_chars is_digit (lower s) = true -> lower s = s.
Proof.
  induction s as [|c s IH]; [reflexivity|]. cbn [lower all_chars]. intros H.
  apply andb_true_iff in H as [Hc Hs].
  now rewrite (lower_char_digit_origin c Hc), (IH Hs).
Qed.

(** a marker made of digits stands in the text when it stands in the
    lower-cased text *)
Lemma contains_digits_lower (m s : string) :
  all_chars is_digit m = true -> contains m (lower s) = true -> contains m s = true.
Proof.
  intros Hm H. apply contains_true in H as (a & b & H).
  apply lower_split in H as (s1 & s' & -> & _ & H).
  apply lower_split in H as (s2 & s3 & -> & H2 & _).
  apply contains_true. exists s1, s3.
  rewrite <- H2 in Hm. apply lower_digits_origin in Hm. now rewrite <- H2, Hm.
Qed.

End DigitMarkerFacts.

(** X25.  A preference text that holds a 16GB marker also passes the test for
    the 16-inch screen, since "16" stands inside "16gb": the query gets both
    " 16-inch" and " 16GB". *)
Theorem ram_marker_adds_screen_suffix (base_product user_preferences : string) :
  contains "16gb" (lower user_preferences) || contains "16 gb" (lower user_preferences) = true ->
  build_search_query base_product user_preferences
  = base_product ++ render_suffixes (query_suffixes user_preferences)
  /\ In SInch16 (query_suffixes user_preferences)
  /\ In S16GB (query_suffixes user_preferences).
Proof.
  intros H. split; [apply build_search_query_suffixes|].
  split; apply in_query_suffixes; cbn [appended]; [|exact H].
  assert (H16 : contains "16" (lower user_preferences) = true).
  { apply orb_true_iff in H as [H | H];
      [apply (contains_trans "16" "16gb") | apply (contains_trans "16" "16 gb")];
      solve [reflexivity | exact H]. }
  now rewrite (contains_digits_lower "16" user_preferences eq_refl H16).
Qed.

Lemma ram_marker_adds_screen_suffix_witness :
  build_search_query "Dell XPS" "14-inch screen, 16GB RAM" = "Dell XPS 16-inch 14-inch 16GB"
  /\ In SInch16 (query_suffixes "14-inch screen, 16GB RAM")
  /\ In S16GB (query_suffixes "14-inch screen, 16GB RAM").
Proof.
  split; [reflexivity|].
  apply (ram_marker_adds_screen_suffix "Dell XPS" "14-inch screen, 16GB RAM"). reflexivity.
Defined.
